(** * Nova backend: the chat relay, its tools and its per-user memory

    A shallow embedding of [main.py].  Python strings are sequences of
    Unicode code points, the per-user memory is a dictionary from user
    identifier to a list of records, and the three remote services
    (Open-Meteo, the chat-completion API and the transcription API) are
    answers supplied by the environment.  Every outbound request is
    written to a log, so that "the language model was not called" is a
    statement about the program. *)

From Stdlib Require Import ZArith NArith Ascii String Lia.
From stdpp Require Import base option list gmap.

Open Scope N_scope.

(** ** Python [str] *)

(** A [str] is a list of code points. *)
Abbreviation pystr := (list N).

(** String literals of the source, all ASCII but for the degree sign. *)
Definition str (s : string) : pystr :=
  (fun a => N_of_ascii a) <$> list_ascii_of_string s.

Definition is_ascii_upper (c : N) : bool := (65 <=? c) && (c <=? 90).

(** The lower-case form of the code points outside ASCII comes from the
    Unicode character database of the interpreter.  It gives one code
    point for one code point (for capital sigma the choice depends on the
    neighbours), with the single exception of U+0130, LATIN CAPITAL LETTER
    I WITH DOT ABOVE, whose lower-case form is the two code points U+0069
    U+0307.  The table is taken from the environment; the exception is
    written out. *)
Definition CaseTable := pystr -> N -> pystr -> N.

Definition lower_char (tbl : CaseTable) (before : pystr) (c : N) (after : pystr) : pystr :=
  if is_ascii_upper c then [c + 32]
  else if c <? 128 then [c]
  else if c =? 304 then [105; 775]
  else [tbl before c after].

Fixpoint lower_from (tbl : CaseTable) (before s : pystr) : pystr :=
  match s with
  | [] => []
  | c :: rest => lower_char tbl before c rest ++ lower_from tbl (before ++ [c]) rest
  end.

(** [s.lower()] *)
Definition lower (tbl : CaseTable) (s : pystr) : pystr := lower_from tbl [] s.

(** [c.isspace()]: U+0009..000D, U+001C..0020, U+0085, U+00A0, U+1680,
    U+2000..200A, U+2028, U+2029, U+202F, U+205F, U+3000. *)
Definition isspace (c : N) : bool :=
  ((9 <=? c) && (c <=? 13)) || ((28 <=? c) && (c <=? 32))
  || (c =? 133) || (c =? 160) || (c =? 5760)
  || ((8192 <=? c) && (c <=? 8202))
  || (c =? 8232) || (c =? 8233) || (c =? 8239) || (c =? 8287) || (c =? 12288).

Fixpoint lstrip_where (p : N -> bool) (s : pystr) : pystr :=
  match s with
  | [] => []
  | c :: rest => if p c then lstrip_where p rest else s
  end.

Definition rstrip_where (p : N -> bool) (s : pystr) : pystr :=
  rev (lstrip_where p (rev s)).

(** [s.strip()] *)
Definition strip (s : pystr) : pystr :=
  rstrip_where isspace (lstrip_where isspace s).

Definition char_in (chars : pystr) (c : N) : bool := existsb (N.eqb c) chars.

(** [s.rstrip(chars)] *)
Definition rstrip (chars s : pystr) : pystr := rstrip_where (char_in chars) s.

(** [s.startswith(prefix)] *)
Fixpoint startswith (s prefix : pystr) {struct prefix} : bool :=
  match prefix, s with
  | [], _ => true
  | _ :: _, [] => false
  | p :: prefix', c :: s' => (c =? p) && startswith s' prefix'
  end.

Fixpoint find_from (i : nat) (s sub : pystr) : option nat :=
  if startswith s sub then Some i
  else match s with
       | [] => None
       | _ :: s' => find_from (S i) s' sub
       end.

(** [s.find(sub)]: the lowest index where [sub] occurs, or -1. *)
Definition find (s sub : pystr) : Z :=
  match find_from 0 s sub with
  | Some i => Z.of_nat i
  | None => (-1)%Z
  end.

(** [sub in s] *)
Definition contains (s sub : pystr) : bool :=
  match find_from 0 s sub with
  | Some _ => true
  | None => false
  end.

(** [s[i:]] for a list or a string, negative [i] counting from the end. *)
Definition slice_from {A} (i : Z) (s : list A) : list A :=
  if (i <? 0)%Z
  then drop (Z.to_nat (Z.max 0 (Z.of_nat (length s) + i))) s
  else drop (Z.to_nat i) s.

(** [s.split(sep, 1)] for a separator of one code point. *)
Fixpoint split_once (sep : N) (s : pystr) : list pystr :=
  match s with
  | [] => [[]]
  | c :: rest =>
      if c =? sep then [[]; rest]
      else match split_once sep rest with
           | [] => [[c]]
           | h :: t => (c :: h) :: t
           end
  end.

(** [a or b] on strings: the empty string is false. *)
Definition str_or (a b : pystr) : pystr :=
  match a with
  | [] => b
  | _ :: _ => a
  end.

(** A surrogate code point, U+D800..U+DFFF.  A [str] may hold one on its
    own (the JSON text "\ud800" decodes to it); UTF-8 has no encoding for
    it. *)
Definition is_surrogate (c : N) : bool := (55296 <=? c) && (c <=? 57343).

(** [s.encode("utf-8")] succeeds. *)
Definition utf8_encodable (s : pystr) : bool :=
  forallb (fun c => negb (is_surrogate c)) s.

(** ** Data model *)

(** The pydantic model [Message]. *)
Record Message := { role : pystr; content : pystr }.

(** The pydantic model [ChatRequest]. *)
Record ChatRequest := {
  user_id : pystr;
  message : pystr;
  history : list Message
}.

(** A record of the memory and of the conversation sent to the language
    model: a dictionary with the keys "role" and "content". *)
Record Entry := { entry_role : pystr; entry_content : pystr }.

(** An uploaded file: name, bytes and content type. *)
Record UploadFile := {
  filename : option pystr;
  file_bytes : list Byte.byte;
  content_type : option pystr
}.

(** A JSON object whose values are strings, as the three endpoints return. *)
Abbreviation Json := (list (pystr * pystr)).

(** ** The environment *)

(** What [requests.get(geocode_url).json()] leads to: an exception
    somewhere on the way to the coordinates, an answer without results, or
    the latitude and longitude of the first result as the f-string prints
    them. *)
Inductive GeoAnswer :=
| GeoRaises
| GeoNoResults
| GeoFirst (lat lon : pystr).

(** The same for the forecast: an exception, an answer without
    "current_weather", or the temperature and wind speed as printed. *)
Inductive ForecastAnswer :=
| ForecastRaises
| ForecastNoCurrent
| ForecastCurrent (temp wind : pystr).

(** [client.chat.completions.create] followed by
    [completion.choices[0].message.content]: an exception, or the content,
    which the API may leave null. *)
Inductive CompletionAnswer :=
| CompletionRaises
| CompletionContent (text : option pystr).

(** [client.audio.transcriptions.create] followed by [result.text]. *)
Inductive TranscriptionAnswer :=
| TranscriptionRaises
| TranscriptionText (text : pystr).

Record Env := {
  case_table : CaseTable;
  geocode : pystr -> GeoAnswer;
  forecast : pystr -> ForecastAnswer;
  chat_completions : pystr -> list Entry -> CompletionAnswer;
  audio_transcriptions :
    pystr -> option pystr -> list Byte.byte -> option pystr -> TranscriptionAnswer
}.

(** ** State, exceptions and the monad of the handlers *)

(** The outbound requests, in the order they are made. *)
Inductive Call :=
| HttpGet (url : pystr)
| ChatCompletionsCreate (model : pystr) (messages : list Entry)
| TranscriptionsCreate (model : pystr) (name : option pystr)
    (audio : list Byte.byte) (ctype : option pystr).

Record State := {
  user_memory : gmap pystr (list Entry);
  calls : list Call
}.

Inductive Exception :=
| KeyError
| IndexError
| AttributeError
| UnicodeEncodeError
| RemoteError.

Inductive Result (A : Type) :=
| Ok (a : A)
| Raise (e : Exception).
Arguments Ok {A} a.
Arguments Raise {A} e.

(** A handler reads and writes the state and either returns or raises;
    what it wrote before raising stays written. *)
Definition M (A : Type) : Type := State -> Result A * State.

#[global] Instance M_ret : MRet M := fun A a st => (Ok a, st).

#[global] Instance M_bind : MBind M := fun A B f m st =>
  match m st with
  | (Ok a, st') => f a st'
  | (Raise e, st') => (Raise e, st')
  end.

Definition raise {A} (e : Exception) : M A := fun st => (Raise e, st).

(** [try: body except Exception as e: handler] *)
Definition try_except {A} (body : M A) (handler : Exception -> M A) : M A :=
  fun st =>
    match body st with
    | (Ok a, st') => (Ok a, st')
    | (Raise e, st') => handler e st'
    end.

Definition log_call (c : Call) : M unit := fun st =>
  (Ok tt, {| user_memory := user_memory st; calls := calls st ++ [c] |}).

(** [user_memory.get(user_id, [])] *)
Definition memory_get (uid : pystr) : M (list Entry) := fun st =>
  (Ok (default [] (user_memory st !! uid)), st).

(** [user_memory.setdefault(user_id, [])] *)
Definition memory_setdefault (uid : pystr) : M unit := fun st =>
  match user_memory st !! uid with
  | Some _ => (Ok tt, st)
  | None => (Ok tt, {| user_memory := <[uid := []]> (user_memory st); calls := calls st |})
  end.

(** [user_memory[user_id].append(entry)] *)
Definition memory_append (uid : pystr) (e : Entry) : M unit := fun st =>
  match user_memory st !! uid with
  | Some l => (Ok tt, {| user_memory := <[uid := l ++ [e]]> (user_memory st); calls := calls st |})
  | None => (Raise KeyError, st)
  end.

(** ** The weather tool *)

(** The two GET requests of [get_weather_for_city].  What [print] writes
    is not part of the model. *)

Definition requests_get_geocode (env : Env) (url : pystr) : M (option (pystr * pystr)) :=
  _ ← log_call (HttpGet url);
  match geocode env url with
  | GeoRaises => raise RemoteError
  | GeoNoResults => mret None
  | GeoFirst lat lon => mret (Some (lat, lon))
  end.

Definition requests_get_forecast (env : Env) (url : pystr) : M (option (pystr * pystr)) :=
  _ ← log_call (HttpGet url);
  match forecast env url with
  | ForecastRaises => raise RemoteError
  | ForecastNoCurrent => mret None
  | ForecastCurrent temp wind => mret (Some (temp, wind))
  end.

Definition get_weather_for_city (env : Env) (city : pystr) : M pystr :=
  try_except
    (let geocode_url :=
       str "https://geocoding-api.open-meteo.com/v1/search?name=" ++ city ++ str "&count=1" in
     geo ← requests_get_geocode env geocode_url;
     match geo with
     | None =>
         mret (str "I couldn't find weather information for '" ++ city ++ str "'.")
     | Some (lat, lon) =>
         let weather_url :=
           str "https://api.open-meteo.com/v1/forecast?latitude=" ++ lat
           ++ str "&longitude=" ++ lon ++ str "&current_weather=true" in
         weather ← requests_get_forecast env weather_url;
         match weather with
         | None => mret (str "Weather information is not available right now.")
         | Some (temp, wind) =>
             mret (str "The current temperature in " ++ city ++ str " is " ++ temp
                   ++ [176] ++ str "C with wind speeds of " ++ wind ++ str " km/h.")
         end
     end)
    (fun _ => mret (str "Sorry, I couldn't retrieve the weather right now.")).

(** ** The tool hook *)

Definition maybe_handle_tools (env : Env) (user_id message : pystr) : M (option pystr) :=
  let lower := lower (case_table env) message in
  if contains lower (str "weather in ") then
    let idx := (find lower (str "weather in ") + Z.of_nat (length (str "weather in ")))%Z in
    let city :=
      str_or (rstrip (str "? .,!") (strip (slice_from idx message))) (str "Bentonville") in
    reply ← get_weather_for_city env city;
    mret (Some reply)
  else if startswith lower (str "note:") || startswith lower (str "note ") then
    content ←
      (if contains message (str ":")
       then match last (split_once 58 message) with
            | Some part => mret (strip part)
            | None => raise IndexError
            end
       else mret (strip (slice_from 5 message)));
    match content with
    | [] => mret (Some (str "Your note is empty. Try 'Note: buy hay for the horses.'"))
    | _ :: _ =>
        _ ← memory_setdefault user_id;
        _ ← memory_append user_id
              {| entry_role := str "system"; entry_content := str "[NOTE] " ++ content |};
        mret (Some (str "Got it, I saved a note: " ++ content))
    end
  else mret None.

(** ** The endpoints *)

(** [JSONResponse(content)]: the constructor renders the body at once,
    [json.dumps(content, ensure_ascii=False, ...).encode("utf-8")], and so
    raises UnicodeEncodeError when a string of the body holds a surrogate. *)
Definition JSONResponse (content : Json) : M Json :=
  if forallb (fun kv => utf8_encodable kv.1 && utf8_encodable kv.2) content
  then mret content
  else raise UnicodeEncodeError.

Definition system_prompt : pystr :=
  str "You are Nova, a friendly, concise personal AI assistant. "
  ++ str "You remember context from the conversation. "
  ++ str "If the user asks about weather, notes, or reminders, you can reference what I've already done, "
  ++ str "but avoid making up actions I didn't perform.".

Definition apology : pystr :=
  str "Sorry, I had an issue talking to my brain (OpenAI). Try again in a moment.".

(** Lines 147 to 150: the conversation sent to the language model. *)
Definition build_messages (history incoming_history : list Entry) (user_message : pystr)
  : list Entry :=
  [{| entry_role := str "system"; entry_content := system_prompt |}]
  ++ slice_from (-10) history
  ++ slice_from (-10) incoming_history
  ++ [{| entry_role := str "user"; entry_content := user_message |}].

(** The body of the [try] of lines 154 to 159.  The call is made with the
    model "gpt-4.1-mini" and a fixed temperature. *)
Definition completion_reply (env : Env) (messages : list Entry) : M pystr :=
  _ ← log_call (ChatCompletionsCreate (str "gpt-4.1-mini") messages);
  match chat_completions env (str "gpt-4.1-mini") messages with
  | CompletionRaises => raise RemoteError
  | CompletionContent None => raise AttributeError
  | CompletionContent (Some text) => mret (strip text)
  end.

(** POST /chat *)
Definition chat (env : Env) (req : ChatRequest) : M Json :=
  let user_id := user_id req in
  let user_message := strip (message req) in
  tool_reply ← maybe_handle_tools env user_id user_message;
  match tool_reply with
  | Some tool_reply =>
      _ ← memory_setdefault user_id;
      _ ← memory_append user_id {| entry_role := str "user"; entry_content := user_message |};
      _ ← memory_append user_id {| entry_role := str "assistant"; entry_content := tool_reply |};
      JSONResponse [(str "reply", tool_reply)]
  | None =>
      let req_history := history req in
      history ← memory_get user_id;
      let incoming_history :=
        (fun m => {| entry_role := role m; entry_content := content m |}) <$> req_history in
      let messages := build_messages history incoming_history user_message in
      reply ← try_except (completion_reply env messages) (fun _ => mret apology);
      _ ← memory_setdefault user_id;
      _ ← memory_append user_id {| entry_role := str "user"; entry_content := user_message |};
      _ ← memory_append user_id {| entry_role := str "assistant"; entry_content := reply |};
      JSONResponse [(str "reply", reply)]
  end.

(** POST /transcribe.  The function returns a plain dictionary; the
    framework renders it after the function has returned. *)
Definition transcribe_audio (env : Env) (file : UploadFile) : M Json :=
  let audio_bytes := file_bytes file in
  _ ← log_call (TranscriptionsCreate (str "whisper-1") (filename file) audio_bytes
                  (content_type file));
  match audio_transcriptions env (str "whisper-1") (filename file) audio_bytes
          (content_type file) with
  | TranscriptionRaises => raise RemoteError
  | TranscriptionText text => mret [(str "text", text)]
  end.

(** GET / *)
Definition root : M Json := mret [(str "message", str "Nova backend is running!")].

(** The three routes of the application. *)
Inductive Request :=
| PostChat (req : ChatRequest)
| PostTranscribe (file : UploadFile)
| GetRoot.

Definition handle (env : Env) (r : Request) : M Json :=
  match r with
  | PostChat req => chat env req
  | PostTranscribe file => transcribe_audio env file
  | GetRoot => root
  end.

(** Requests are served one after the other: [chat] has no [await], and
    the one of [transcribe_audio] comes before anything else it does.  An
    exception ends the request, not the server. *)
Fixpoint serve (rs : list (Env * Request)) (st : State) : State :=
  match rs with
  | [] => st
  | (env, r) :: rs' => serve rs' (snd (handle env r st))
  end.

Close Scope N_scope.

(** ** What the claims speak about *)

(** A message matches a tool pattern when its lower-case form contains
    "weather in ", or starts with "note:" or "note ". *)
Definition tool_pattern (tbl : CaseTable) (msg : pystr) : bool :=
  contains (lower tbl msg) (str "weather in ")
  || startswith (lower tbl msg) (str "note:")
  || startswith (lower tbl msg) (str "note ").

(** The text after the first occurrence of a code point. *)
Fixpoint after_first (sep : N) (s : pystr) : pystr :=
  match s with
  | [] => []
  | c :: rest => if (c =? sep)%N then rest else after_first sep rest
  end.

(** The text before it. *)
Fixpoint before_first (sep : N) (s : pystr) : pystr :=
  match s with
  | [] => []
  | c :: rest => if (c =? sep)%N then [] else c :: before_first sep rest
  end.

(** The content of a note command: what follows the first colon if the
    message has one, what follows the first five code points otherwise,
    without the surrounding whitespace. *)
Definition note_content (msg : pystr) : pystr :=
  if char_in msg 58%N then strip (after_first 58%N msg) else strip (drop 5 msg).

Definition empty_note_reply : pystr :=
  str "Your note is empty. Try 'Note: buy hay for the horses.'".

Definition user_entry (text : pystr) : Entry :=
  {| entry_role := str "user"; entry_content := text |}.

Definition assistant_entry (text : pystr) : Entry :=
  {| entry_role := str "assistant"; entry_content := text |}.

Definition system_entry (text : pystr) : Entry :=
  {| entry_role := str "system"; entry_content := text |}.

(** The stored list of a user; a user without a key has none. *)
Definition stored (st : State) (uid : pystr) : list Entry :=
  default [] (user_memory st !! uid).

Definition to_entry (m : Message) : Entry :=
  {| entry_role := role m; entry_content := content m |}.

(** What /chat hands back for a reply: the JSON object with the key
    "reply", or the exception of the response constructor. *)
Definition reply_response (reply : pystr) : Result Json :=
  if utf8_encodable reply then Ok [(str "reply", reply)] else Raise UnicodeEncodeError.

(** The reply of the fallback path, from what the completion call gave. *)
Definition fallback_reply (answer : CompletionAnswer) : pystr :=
  match answer with
  | CompletionContent (Some text) => strip text
  | _ => apology
  end.

(** A note command: the lower-case form of the message starts with "note:"
    or with "note ". *)
Definition note_command (tbl : CaseTable) (msg : pystr) : bool :=
  startswith (lower tbl msg) (str "note:") || startswith (lower tbl msg) (str "note ").

(** What C9 says of a /chat request whose stripped message is a note
    command.  With an empty content the reply is the fixed message and the
    caller's list gets the user entry and the reply.  With a content the
    list gets three entries: the system entry "[NOTE] content", the user
    entry, and the confirmation; of what the endpoint hands back in that
    case C9 says nothing. *)
Definition note_command_effect (env : Env) (req : ChatRequest) (st : State) : Prop :=
  let msg := strip (message req) in
  let content := note_content msg in
  (content = [] ->
   fst (chat env req st) = Ok [(str "reply", empty_note_reply)]
   ∧ user_memory (snd (chat env req st)) !! user_id req
     = Some (stored st (user_id req)
             ++ [user_entry msg; assistant_entry empty_note_reply]))
  ∧ (content ≠ [] ->
     user_memory (snd (chat env req st)) !! user_id req
     = Some (stored st (user_id req)
             ++ [system_entry (str "[NOTE] " ++ content);
                 user_entry msg;
                 assistant_entry (str "Got it, I saved a note: " ++ content)])).

(** ** The texts and URLs of the weather tool *)

(** Line 60: the city goes into the query string as it is. *)
Definition geocode_url (city : pystr) : pystr :=
  str "https://geocoding-api.open-meteo.com/v1/search?name=" ++ city ++ str "&count=1".

(** Lines 69 to 72. *)
Definition forecast_url (lat lon : pystr) : pystr :=
  str "https://api.open-meteo.com/v1/forecast?latitude=" ++ lat
  ++ str "&longitude=" ++ lon ++ str "&current_weather=true".

Definition weather_failed_reply : pystr :=
  str "Sorry, I couldn't retrieve the weather right now.".

Definition city_unknown_reply (city : pystr) : pystr :=
  str "I couldn't find weather information for '" ++ city ++ str "'.".

Definition weather_unavailable_reply : pystr :=
  str "Weather information is not available right now.".

Definition weather_report (city temp wind : pystr) : pystr :=
  str "The current temperature in " ++ city ++ str " is " ++ temp
  ++ [176%N] ++ str "C with wind speeds of " ++ wind ++ str " km/h.".

(** The reply of the weather tool and the URLs it requests, as a function
    of what the two services answer. *)
Definition weather_outcome (env : Env) (city : pystr) : pystr * list pystr :=
  match geocode env (geocode_url city) with
  | GeoRaises => (weather_failed_reply, [geocode_url city])
  | GeoNoResults => (city_unknown_reply city, [geocode_url city])
  | GeoFirst lat lon =>
      (match forecast env (forecast_url lat lon) with
       | ForecastRaises => weather_failed_reply
       | ForecastNoCurrent => weather_unavailable_reply
       | ForecastCurrent temp wind => weather_report city temp wind
       end,
       [geocode_url city; forecast_url lat lon])
  end.

(** The city that line 95 computes from the offset [idx]. *)
Definition city_at (idx : Z) (msg : pystr) : pystr :=
  str_or (rstrip (str "? .,!") (strip (slice_from idx msg))) (str "Bentonville").

(** The outbound requests that go to the language model. *)
Definition is_completion_call (c : Call) : bool :=
  match c with
  | ChatCompletionsCreate _ _ => true
  | _ => false
  end.

(** A list built by /chat requests alone: a sequence of exchanges, each a
    user entry followed by an assistant entry, some of them preceded by the
    system entry of a note with a content. *)
Inductive exchanges : list Entry -> Prop :=
| exchanges_nil : exchanges []
| exchanges_pair (l : list Entry) (u a : pystr) :
    exchanges l -> exchanges (l ++ [user_entry u; assistant_entry a])
| exchanges_note (l : list Entry) (n u a : pystr) :
    n ≠ [] ->
    exchanges l ->
    exchanges (l ++ [system_entry (str "[NOTE] " ++ n); user_entry u; assistant_entry a]).

(** Every stored list is a sequence of exchanges. *)
Definition memory_exchanges (st : State) : Prop :=
  ∀ uid l, user_memory st !! uid = Some l -> exchanges l.

(** Lower case of an ASCII code point. *)
Definition ascii_lower (c : N) : N := if is_ascii_upper c then (c + 32)%N else c.

(** ** Inputs for the examples *)

(** A case table that maps no code point. *)
Definition plain_table : CaseTable := fun _ c _ => c.

(** An environment in which every remote service fails. *)
Definition env_down : Env := {|
  case_table := plain_table;
  geocode := fun _ => GeoRaises;
  forecast := fun _ => ForecastRaises;
  chat_completions := fun _ _ => CompletionRaises;
  audio_transcriptions := fun _ _ _ _ => TranscriptionRaises
|}.

(** An environment in which every remote service answers. *)
Definition env_up : Env := {|
  case_table := plain_table;
  geocode := fun _ => GeoFirst (str "36.37") (str "-94.21");
  forecast := fun _ => ForecastCurrent (str "21.5") (str "7.2");
  chat_completions := fun _ _ => CompletionContent (Some (str " Hello! "));
  audio_transcriptions := fun _ _ _ _ => TranscriptionText (str "buy hay")
|}.

Definition st0 : State := {| user_memory := ∅; calls := [] |}.

Definition req_of (uid msg : string) : ChatRequest :=
  {| user_id := str uid; message := str msg; history := [] |}.

Definition st_hay : State :=
  {| user_memory := {[ str "u" := [system_entry (str "[NOTE] buy hay")] ]}; calls := [] |}.

Definition hay_wav : UploadFile :=
  {| filename := Some (str "hay.wav");
     file_bytes := [Byte.x52; Byte.x49; Byte.x46; Byte.x46];
     content_type := Some (str "audio/wav") |}.


(** An environment whose language model answers with a surrogate. *)
Definition env_surrogate : Env := {|
  case_table := plain_table;
  geocode := fun _ => GeoNoResults;
  forecast := fun _ => ForecastNoCurrent;
  chat_completions := fun _ _ => CompletionContent (Some [55296%N]);
  audio_transcriptions := fun _ _ _ _ => TranscriptionRaises
|}.

(** An environment whose geocoder knows no city. *)
Definition env_nowhere : Env := {|
  case_table := plain_table;
  geocode := fun _ => GeoNoResults;
  forecast := fun _ => ForecastNoCurrent;
  chat_completions := fun _ _ => CompletionContent None;
  audio_transcriptions := fun _ _ _ _ => TranscriptionRaises
|}.

(** An environment whose geocoder answers and whose forecast fails. *)
Definition env_half : Env := {|
  case_table := plain_table;
  geocode := fun _ => GeoFirst (str "41.89") (str "12.51");
  forecast := fun _ => ForecastRaises;
  chat_completions := fun _ _ => CompletionContent (Some (str "ok"));
  audio_transcriptions := fun _ _ _ _ => TranscriptionText []
|}.

(** The memory of [st_hay] with a second user and a request already made. *)
Definition st_hay_v : State :=
  {| user_memory := <[ str "v" := [user_entry (str "hi")] ]> (user_memory st_hay);
     calls := [HttpGet (geocode_url (str "Rome"))] |}.

(** A memory with twelve entries for one user. *)
Definition st_long : State :=
  {| user_memory :=
       {[ str "u" := (fun n => user_entry (str "m" ++ [N.of_nat n])) <$> seq 48 12 ]};
     calls := [] |}.

(** ** Python [str]: examples *)

Example lower_ascii : lower plain_table (str "Weather IN Paris?") = str "weather in paris?".
Proof. reflexivity. Qed.

Example lower_dotted_capital_i :
  lower plain_table (304%N :: str " A") = 105%N :: 775%N :: str " a".
Proof. reflexivity. Qed.

Example strip_both : strip (str "  note: hay " ++ [9%N; 160%N]) = str "note: hay".
Proof. reflexivity. Qed.

Example rstrip_chars : rstrip (str "? .,!") (str "Paris ?!.") = str "Paris".
Proof. reflexivity. Qed.

Example find_first : find (str "a weather in b weather in c") (str "weather in ") = 2%Z.
Proof. reflexivity. Qed.

Example find_absent : find (str "hello") (str "weather in ") = (-1)%Z.
Proof. reflexivity. Qed.

Example split_once_first : split_once 58 (str "note: a:b") = [str "note"; str " a:b"].
Proof. reflexivity. Qed.

Example slice_last_ten : slice_from (-10) (seq 0 12) = seq 2 10.
Proof. reflexivity. Qed.

Example slice_short : slice_from (-10) (seq 0 3) = seq 0 3.
Proof. reflexivity. Qed.

(** ** Lemmas on strings *)

Lemma split_once_shape (sep : N) (s : pystr) :
  split_once sep s =
  if existsb (fun c => (c =? sep)%N) s
  then [before_first sep s; after_first sep s]
  else [s].
Proof.
  induction s as [|c rest IH]; simpl; [reflexivity|].
  destruct (c =? sep)%N; simpl; [reflexivity|].
  rewrite IH. destruct (existsb _ rest); reflexivity.
Qed.

Lemma find_from_single (i : nat) (s : pystr) (c : N) :
  (if find_from i s [c] is Some _ then true else false) = existsb (fun x => (x =? c)%N) s.
Proof.
  revert i. induction s as [|x rest IH]; intros i; simpl; [reflexivity|].
  destruct (x =? c)%N; simpl; [reflexivity|]. apply IH.
Qed.

Lemma contains_single (s : pystr) (c : N) :
  contains s [c] = existsb (fun x => (x =? c)%N) s.
Proof. unfold contains. apply find_from_single. Qed.

Lemma char_in_existsb (s : pystr) (c : N) :
  char_in s c = existsb (fun x => (x =? c)%N) s.
Proof.
  unfold char_in. induction s as [|x rest IH]; simpl; [reflexivity|].
  rewrite IH. f_equal. apply N.eqb_sym.
Qed.

(** The content computed by lines 100 of the source is [note_content]. *)
Lemma note_parse (msg : pystr) (st : State) :
  (if contains msg (str ":")
   then match last (split_once 58%N msg) with
        | Some part => mret (strip part)
        | None => raise IndexError
        end
   else mret (strip (slice_from 5 msg))) st
  = (Ok (note_content msg), st).
Proof.
  unfold note_content. change (str ":") with [58%N].
  rewrite contains_single, char_in_existsb, split_once_shape.
  destruct (existsb _ msg); reflexivity.
Qed.

(** ** Lemmas on the handlers *)

Lemma bind_run {A B} (m : M A) (f : A -> M B) (st : State) :
  (m ≫= f) st =
  match m st with
  | (Ok a, st') => f a st'
  | (Raise e, st') => (Raise e, st')
  end.
Proof. reflexivity. Qed.

(** Running the first action of a sequence, given its equation. *)
Tactic Notation "run_with" uconstr(eqn) := rewrite bind_run, eqn; cbv beta iota.

Lemma memory_setdefault_run (uid : pystr) (st : State) :
  memory_setdefault uid st
  = (Ok tt, {| user_memory := <[uid := stored st uid]> (user_memory st);
               calls := calls st |}).
Proof.
  destruct st as [m cs]. unfold memory_setdefault, stored; simpl.
  destruct (m !! uid) as [l|] eqn:Hl; simpl; [|reflexivity].
  by rewrite insert_id.
Qed.

Lemma memory_append_run (uid : pystr) (e : Entry) (st : State) (l : list Entry) :
  user_memory st !! uid = Some l ->
  memory_append uid e st
  = (Ok tt, {| user_memory := <[uid := l ++ [e]]> (user_memory st);
               calls := calls st |}).
Proof. intros Hl. unfold memory_append. by rewrite Hl. Qed.

(** Appending to a list that the previous action has just written. *)
Ltac run_append l :=
  rewrite bind_run, (memory_append_run _ _ _ l) by (simpl; apply lookup_insert_eq);
  cbv beta iota.

(** Lines 165 to 167 (and 127 to 129): the list of the user, created if
    absent, gets the two entries. *)
Lemma remember_run {A} (uid : pystr) (e1 e2 : Entry) (k : M A) (st : State) :
  (_ ← memory_setdefault uid; _ ← memory_append uid e1; _ ← memory_append uid e2; k) st
  = k {| user_memory := <[uid := stored st uid ++ [e1; e2]]> (user_memory st);
         calls := calls st |}.
Proof.
  run_with memory_setdefault_run.
  run_append (stored st uid).
  run_append (stored st uid ++ [e1]).
  simpl user_memory. simpl calls.
  by rewrite !insert_insert_eq, <- app_assoc.
Qed.

(** The weather tool returns a reply whatever the two services do; it
    makes one or two GET requests and leaves the memory alone. *)
Lemma get_weather_for_city_run (env : Env) (city : pystr) (st : State) :
  ∃ reply urls,
    get_weather_for_city env city st
    = (Ok reply, {| user_memory := user_memory st;
                    calls := calls st ++ (HttpGet <$> urls) |}).
Proof.
  unfold get_weather_for_city, try_except, requests_get_geocode, requests_get_forecast.
  rewrite !bind_run; simpl.
  destruct (geocode env _) as [| |lat lon]; simpl.
  - eexists _, [_]. reflexivity.
  - eexists _, [_]. reflexivity.
  - rewrite !bind_run; simpl.
    destruct (forecast env _) as [| |temp wind]; simpl;
      eexists _, [_; _]; rewrite <- app_assoc; reflexivity.
Qed.

(** *** The tool hook, branch by branch *)

Lemma tools_weather_city (env : Env) (uid msg : pystr) (st : State) :
  contains (lower (case_table env) msg) (str "weather in ") = true ->
  maybe_handle_tools env uid msg st
  = (reply ← get_weather_for_city env
       (str_or (rstrip (str "? .,!")
                  (strip (slice_from
                            (find (lower (case_table env) msg) (str "weather in ") + 11) msg)))
               (str "Bentonville"));
     mret (Some reply)) st.
Proof. intros H. unfold maybe_handle_tools. cbv zeta. rewrite H. reflexivity. Qed.

Lemma tools_weather_run (env : Env) (uid msg : pystr) (st : State) :
  contains (lower (case_table env) msg) (str "weather in ") = true ->
  ∃ reply urls,
    maybe_handle_tools env uid msg st
    = (Ok (Some reply), {| user_memory := user_memory st;
                           calls := calls st ++ (HttpGet <$> urls) |}).
Proof.
  intros H. rewrite tools_weather_city by exact H.
  rewrite bind_run.
  destruct (get_weather_for_city_run env
              (str_or (rstrip (str "? .,!")
                 (strip (slice_from
                           (find (lower (case_table env) msg) (str "weather in ") + 11) msg)))
                 (str "Bentonville")) st) as (reply & urls & ->).
  by exists reply, urls.
Qed.

Lemma tools_note_run (env : Env) (uid msg : pystr) (st : State) :
  contains (lower (case_table env) msg) (str "weather in ") = false ->
  startswith (lower (case_table env) msg) (str "note:")
  || startswith (lower (case_table env) msg) (str "note ") = true ->
  maybe_handle_tools env uid msg st
  = match note_content msg with
    | [] => (Ok (Some empty_note_reply), st)
    | _ :: _ =>
        (Ok (Some (str "Got it, I saved a note: " ++ note_content msg)),
         {| user_memory :=
              <[uid := stored st uid ++ [system_entry (str "[NOTE] " ++ note_content msg)]]>
                (user_memory st);
            calls := calls st |})
    end.
Proof.
  intros Hw Hn. unfold maybe_handle_tools. cbv zeta. rewrite Hw, Hn.
  run_with note_parse.
  destruct (note_content msg) as [|c content] eqn:Hc; [reflexivity|].
  run_with memory_setdefault_run.
  run_append (stored st uid).
  simpl user_memory. simpl calls.
  by rewrite insert_insert_eq.
Qed.

Lemma tools_none_run (env : Env) (uid msg : pystr) (st : State) :
  tool_pattern (case_table env) msg = false ->
  maybe_handle_tools env uid msg st = (Ok None, st).
Proof.
  unfold tool_pattern. intros H.
  apply orb_false_elim in H as [H Hn2]. apply orb_false_elim in H as [Hw Hn1].
  unfold maybe_handle_tools. cbv zeta. by rewrite Hw, Hn1, Hn2.
Qed.

(** A matching message always gets a reply from the hook.  The hook makes
    GET requests only, and the one change it makes to the memory is to add
    entries to the list of the caller. *)
Lemma tools_some_run (env : Env) (uid msg : pystr) (st : State) :
  tool_pattern (case_table env) msg = true ->
  ∃ reply st1 urls added,
    maybe_handle_tools env uid msg st = (Ok (Some reply), st1)
    ∧ calls st1 = calls st ++ (HttpGet <$> urls)
    ∧ stored st1 uid = stored st uid ++ added
    ∧ (∀ l, user_memory st !! uid = Some l -> user_memory st1 !! uid = Some (l ++ added))
    ∧ (∀ other, other ≠ uid -> user_memory st1 !! other = user_memory st !! other).
Proof.
  unfold tool_pattern. intros H.
  destruct (contains (lower (case_table env) msg) (str "weather in ")) eqn:Hw.
  - destruct (tools_weather_run env uid msg st Hw) as (reply & urls & ->).
    eexists reply, _, urls, []. split; [reflexivity|]. simpl.
    unfold stored; simpl. rewrite app_nil_r. repeat split.
    intros l Hl. by rewrite app_nil_r.
  - simpl in H. rewrite (tools_note_run env uid msg st Hw H).
    destruct (note_content msg) as [|c content].
    + exists empty_note_reply, st, [], []. rewrite !app_nil_r. repeat split.
      intros l Hl. by rewrite app_nil_r.
    + eexists _, _, [], [_]. split; [reflexivity|]. simpl. rewrite app_nil_r.
      unfold stored; simpl. rewrite lookup_insert_eq. repeat split.
      * intros l Hl. by rewrite Hl.
      * intros other Hne. by rewrite lookup_insert_ne.
Qed.

(** *** The chat endpoint, path by path *)

Lemma JSONResponse_reply (reply : pystr) (st : State) :
  JSONResponse [(str "reply", reply)] st = (reply_response reply, st).
Proof.
  unfold JSONResponse, reply_response. cbn [forallb fst snd].
  change (utf8_encodable (str "reply")) with true. cbn [andb].
  rewrite andb_true_r. by destruct (utf8_encodable reply).
Qed.

Lemma chat_tool_run (env : Env) (req : ChatRequest) (st st1 : State) (reply : pystr) :
  maybe_handle_tools env (user_id req) (strip (message req)) st = (Ok (Some reply), st1) ->
  chat env req st
  = (reply_response reply,
     {| user_memory :=
          <[user_id req := stored st1 (user_id req)
                           ++ [user_entry (strip (message req)); assistant_entry reply]]>
            (user_memory st1);
        calls := calls st1 |}).
Proof.
  intros H. unfold chat. cbv zeta. run_with H.
  by rewrite remember_run, JSONResponse_reply.
Qed.

Lemma chat_fallback_run (env : Env) (req : ChatRequest) (st : State) :
  tool_pattern (case_table env) (strip (message req)) = false ->
  let messages :=
    build_messages (stored st (user_id req)) (to_entry <$> history req)
      (strip (message req)) in
  let reply := fallback_reply (chat_completions env (str "gpt-4.1-mini") messages) in
  chat env req st
  = (reply_response reply,
     {| user_memory :=
          <[user_id req := stored st (user_id req)
                           ++ [user_entry (strip (message req)); assistant_entry reply]]>
            (user_memory st);
        calls := calls st ++ [ChatCompletionsCreate (str "gpt-4.1-mini") messages] |}).
Proof.
  intros H messages reply. unfold chat. cbv zeta.
  run_with (tools_none_run _ _ _ _ H).
  rewrite bind_run. unfold memory_get at 1. cbv beta iota.
  fold (stored st (user_id req)). fold to_entry. fold messages.
  rewrite bind_run. unfold try_except, completion_reply.
  rewrite bind_run. unfold log_call at 1. cbv beta iota.
  subst reply. unfold fallback_reply.
  destruct (chat_completions env (str "gpt-4.1-mini") messages) as [|[text|]];
    unfold raise, mret, M_ret; cbv beta iota;
    rewrite remember_run, JSONResponse_reply; reflexivity.
Qed.

(** *** The window *)

Lemma slice_last_drop {A} (l : list A) :
  slice_from (-10) l = drop (length l - 10) l.
Proof.
  change (slice_from (-10) l)
    with (drop (Z.to_nat (Z.max 0 (Z.of_nat (length l) + -10))) l).
  f_equal. lia.
Qed.

Lemma slice_last_suffix {A} (l : list A) : slice_from (-10) l `suffix_of` l.
Proof. rewrite slice_last_drop. apply suffix_drop. Qed.

Lemma slice_last_length {A} (l : list A) :
  length (slice_from (-10) l) = min 10 (length l).
Proof. rewrite slice_last_drop, length_drop. lia. Qed.

(** ** The claims *)




(** C2. On the fallback path exactly one request goes to the language
    model, and its message list is the system prompt, then a window of at
    most the 10 most recent entries of the caller's memory, then a window
    of at most the 10 most recent entries of the request's history, then
    the current user message: at most 22 messages. *)
Theorem chat_forwards_bounded_window (env : Env) (req : ChatRequest) (st : State) :
  tool_pattern (case_table env) (strip (message req)) = false ->
  ∃ memory_window history_window,
    calls (snd (chat env req st))
    = calls st ++ [ChatCompletionsCreate (str "gpt-4.1-mini")
                     ([system_entry system_prompt] ++ memory_window ++ history_window
                      ++ [user_entry (strip (message req))])]
    ∧ memory_window `suffix_of` stored st (user_id req)
    ∧ length memory_window = min 10 (length (stored st (user_id req)))
    ∧ history_window `suffix_of` (to_entry <$> history req)
    ∧ length history_window = min 10 (length (history req))
    ∧ length ([system_entry system_prompt] ++ memory_window ++ history_window
              ++ [user_entry (strip (message req))]) <= 22.
Proof.
  intros H. rewrite (chat_fallback_run env req st H). simpl snd. simpl calls.
  exists (slice_from (-10) (stored st (user_id req))),
         (slice_from (-10) (to_entry <$> history req)).
  split; [reflexivity|].
  split; [apply slice_last_suffix|].
  split; [apply slice_last_length|].
  split; [apply slice_last_suffix|].
  split; [by rewrite slice_last_length, length_fmap|].
  rewrite !length_app, !slice_last_length. cbn [length]. lia.
Qed.

Lemma chat_forwards_bounded_window_witness :
  ∃ memory_window history_window,
    calls (snd (chat env_up (req_of "u" "hello") st0))
    = calls st0 ++ [ChatCompletionsCreate (str "gpt-4.1-mini")
                     ([system_entry system_prompt] ++ memory_window ++ history_window
                      ++ [user_entry (strip (str "hello"))])]
    ∧ memory_window `suffix_of` stored st0 (str "u")
    ∧ length memory_window = min 10 (length (stored st0 (str "u")))
    ∧ history_window `suffix_of` (to_entry <$> [])
    ∧ length history_window = min 10 (length (@nil Message))
    ∧ length ([system_entry system_prompt] ++ memory_window ++ history_window
              ++ [user_entry (strip (str "hello"))]) <= 22.
Proof.
  apply (chat_forwards_bounded_window env_up (req_of "u" "hello") st0).
  reflexivity.
Defined.

(** C3. On the fallback path the caller's list afterwards is the old list
    followed by the stripped user message with role "user" and the reply
    with role "assistant".  The reply is the one the endpoint returns; when
    it cannot be encoded as UTF-8 the endpoint raises, and the two entries
    are stored all the same. *)
Theorem chat_fallback_appends_pair (env : Env) (req : ChatRequest) (st : State) :
  tool_pattern (case_table env) (strip (message req)) = false ->
  ∃ reply,
    fst (chat env req st)
    = (if utf8_encodable reply
       then Ok [(str "reply", reply)]
       else Raise UnicodeEncodeError)
    ∧ user_memory (snd (chat env req st)) !! user_id req
      = Some (stored st (user_id req)
              ++ [{| entry_role := str "user"; entry_content := strip (message req) |};
                  {| entry_role := str "assistant"; entry_content := reply |}]).
Proof.
  intros H. rewrite (chat_fallback_run env req st H). simpl.
  eexists. split; [reflexivity|]. apply lookup_insert_eq.
Qed.

Lemma chat_fallback_appends_pair_witness :
  ∃ reply,
    fst (chat env_up (req_of "u" " hello ") st0)
    = (if utf8_encodable reply
       then Ok [(str "reply", reply)]
       else Raise UnicodeEncodeError)
    ∧ user_memory (snd (chat env_up (req_of "u" " hello ") st0)) !! str "u"
      = Some (stored st0 (str "u")
              ++ [{| entry_role := str "user"; entry_content := strip (str " hello ") |};
                  {| entry_role := str "assistant"; entry_content := reply |}]).
Proof.
  apply (chat_fallback_appends_pair env_up (req_of "u" " hello ") st0).
  reflexivity.
Defined.

Example chat_fallback_surrogate_reply :
  fst (chat env_surrogate (req_of "u" "hello") st0) = Raise UnicodeEncodeError
  ∧ stored (snd (chat env_surrogate (req_of "u" "hello") st0)) (str "u")
    = [user_entry (str "hello"); assistant_entry [55296%N]].
Proof. split; reflexivity. Qed.



(** *** What a request does to the memory *)

(** Whatever path it takes, [chat] rewrites one key of the memory, the
    caller's, and puts there the old list with at least two entries added. *)
Lemma chat_memory (env : Env) (req : ChatRequest) (st : State) :
  ∃ added,
    user_memory (snd (chat env req st))
    = <[user_id req := stored st (user_id req) ++ added]> (user_memory st)
    ∧ 2 <= length added.
Proof.
  destruct (tool_pattern (case_table env) (strip (message req))) eqn:H.
  - destruct (tools_some_run env (user_id req) _ st H)
      as (reply & st1 & urls & added & Hrun & _ & Hst & _ & Hother).
    rewrite (chat_tool_run env req st st1 reply Hrun). simpl.
    exists (added ++ [user_entry (strip (message req)); assistant_entry reply]).
    split; [|rewrite length_app; simpl; lia].
    apply map_eq. intros uid. destruct (decide (uid = user_id req)) as [->|Hne].
    + by rewrite !lookup_insert_eq, Hst, app_assoc.
    + rewrite !lookup_insert_ne by done. by apply Hother.
  - rewrite (chat_fallback_run env req st H). simpl.
    eexists. split; [reflexivity|]. simpl. lia.
Qed.

Lemma transcribe_audio_run (env : Env) (file : UploadFile) (st : State) :
  transcribe_audio env file st
  = (match audio_transcriptions env (str "whisper-1") (filename file) (file_bytes file)
             (content_type file) with
     | TranscriptionRaises => Raise RemoteError
     | TranscriptionText text => Ok [(str "text", text)]
     end,
     {| user_memory := user_memory st;
        calls := calls st ++ [TranscriptionsCreate (str "whisper-1") (filename file)
                                (file_bytes file) (content_type file)] |}).
Proof.
  unfold transcribe_audio. cbv zeta. rewrite bind_run. unfold log_call.
  by destruct (audio_transcriptions env _ _ _ _).
Qed.

Lemma handle_extends (env : Env) (r : Request) (st : State) (uid : pystr) (l : list Entry) :
  user_memory st !! uid = Some l ->
  ∃ added, user_memory (snd (handle env r st)) !! uid = Some (l ++ added).
Proof.
  intros Hl. destruct r as [req|file|]; simpl.
  - destruct (chat_memory env req st) as (added & -> & _).
    destruct (decide (uid = user_id req)) as [->|Hne].
    + exists added. rewrite lookup_insert_eq. unfold stored. by rewrite Hl.
    + exists []. rewrite lookup_insert_ne by done. by rewrite app_nil_r.
  - exists []. rewrite transcribe_audio_run. simpl. by rewrite app_nil_r.
  - exists []. by rewrite app_nil_r.
Qed.

Lemma serve_extends (rs : list (Env * Request)) (st : State) (uid : pystr) (l : list Entry) :
  user_memory st !! uid = Some l ->
  ∃ added, user_memory (serve rs st) !! uid = Some (l ++ added).
Proof.
  revert st l. induction rs as [|[env r] rs IH]; intros st l Hl; simpl.
  - exists []. by rewrite app_nil_r.
  - destruct (handle_extends env r st uid l Hl) as (added1 & H1).
    destruct (IH _ _ H1) as (added2 & H2).
    exists (added1 ++ added2). by rewrite app_assoc.
Qed.

(** C5. The memory is append-only and has no bound.  A request of any kind
    (chat on either path, transcribe, health check), and so any sequence
    of requests, leaves every stored list in place as a prefix of its new
    value: no entry is removed or changed, no list is cut, no key is
    dropped.  A chat request adds at least two entries to the caller's
    list however long the list is. *)
Theorem memory_append_only (env : Env) (r : Request) (rs : list (Env * Request))
    (st : State) (uid : pystr) (l : list Entry) :
  user_memory st !! uid = Some l ->
  (∃ added, user_memory (snd (handle env r st)) !! uid = Some (l ++ added))
  ∧ (∃ added, user_memory (serve rs st) !! uid = Some (l ++ added))
  ∧ ∀ req, length (stored st (user_id req)) + 2
           <= length (stored (snd (chat env req st)) (user_id req)).
Proof.
  intros Hl. split; [by apply handle_extends|]. split; [by apply serve_extends|].
  intros req. destruct (chat_memory env req st) as (added & Hmem & Hlen).
  unfold stored at 2. rewrite Hmem, lookup_insert_eq. simpl.
  rewrite length_app. lia.
Qed.

Lemma memory_append_only_witness :
  (∃ added,
     user_memory (snd (handle env_up (PostChat (req_of "u" "hello")) st_hay)) !! str "u"
     = Some ([system_entry (str "[NOTE] buy hay")] ++ added))
  ∧ (∃ added,
       user_memory (serve [(env_down, PostChat (req_of "u" "note: oats"));
                           (env_up, GetRoot);
                           (env_up, PostChat (req_of "v" "weather in Rome"))] st_hay)
       !! str "u"
       = Some ([system_entry (str "[NOTE] buy hay")] ++ added))
  ∧ ∀ req, length (stored st_hay (user_id req)) + 2
           <= length (stored (snd (chat env_up req st_hay)) (user_id req)).
Proof.
  apply (memory_append_only env_up (PostChat (req_of "u" "hello"))
           [(env_down, PostChat (req_of "u" "note: oats"));
            (env_up, GetRoot);
            (env_up, PostChat (req_of "v" "weather in Rome"))]
           st_hay (str "u") [system_entry (str "[NOTE] buy hay")]).
  reflexivity.
Defined.

(** C6. A /chat request leaves the entry of every other user identifier
    as it was. *)
Theorem chat_other_users_unchanged (env : Env) (req : ChatRequest) (st : State)
    (uid : pystr) :
  uid ≠ user_id req ->
  user_memory (snd (chat env req st)) !! uid = user_memory st !! uid.
Proof.
  intros Hne. destruct (chat_memory env req st) as (added & -> & _).
  by rewrite lookup_insert_ne.
Qed.

Lemma chat_other_users_unchanged_witness :
  user_memory (snd (chat env_up (req_of "v" "note: oats") st_hay)) !! str "u"
  = user_memory st_hay !! str "u".
Proof.
  apply (chat_other_users_unchanged env_up (req_of "v" "note: oats") st_hay (str "u")).
  discriminate.
Defined.

(** C7. /transcribe makes one request, to the transcription API, carrying
    the bytes of the uploaded file; it leaves the memory as it was; and
    when the API returns a text, the endpoint returns the JSON object
    whose "text" field is that text. *)
Theorem transcribe_audio_proxies (env : Env) (file : UploadFile) (st : State) :
  calls (snd (transcribe_audio env file st))
  = calls st ++ [TranscriptionsCreate (str "whisper-1") (filename file) (file_bytes file)
                   (content_type file)]
  ∧ user_memory (snd (transcribe_audio env file st)) = user_memory st
  ∧ ∀ text,
      audio_transcriptions env (str "whisper-1") (filename file) (file_bytes file)
        (content_type file) = TranscriptionText text ->
      fst (transcribe_audio env file st) = Ok [(str "text", text)].
Proof.
  rewrite transcribe_audio_run. simpl. repeat split.
  intros text ->. reflexivity.
Qed.

Lemma transcribe_audio_proxies_witness :
  fst (transcribe_audio env_up hay_wav st_hay) = Ok [(str "text", str "buy hay")].
Proof.
  apply (proj2 (proj2 (transcribe_audio_proxies env_up hay_wav st_hay))).
  reflexivity.
Defined.

(** C8. When the call to the language model raises an exception, whichever
    it is, /chat still returns: the reply is the fixed apology, and the
    apology is stored as the assistant entry after the user entry, as any
    reply is. *)
Theorem chat_apologises_when_completion_raises (env : Env) (req : ChatRequest) (st : State)
    (e : Exception) :
  tool_pattern (case_table env) (strip (message req)) = false ->
  fst (completion_reply env
         (build_messages (stored st (user_id req)) (to_entry <$> history req)
            (strip (message req))) st)
  = Raise e ->
  fst (chat env req st)
  = Ok [(str "reply",
         str "Sorry, I had an issue talking to my brain (OpenAI). Try again in a moment.")]
  ∧ user_memory (snd (chat env req st)) !! user_id req
    = Some (stored st (user_id req)
            ++ [{| entry_role := str "user"; entry_content := strip (message req) |};
                {| entry_role := str "assistant";
                   entry_content :=
                     str "Sorry, I had an issue talking to my brain (OpenAI). Try again in a moment." |}]).
Proof.
  intros H Hraise. rewrite (chat_fallback_run env req st H). simpl fst. simpl snd.
  unfold completion_reply in Hraise. rewrite bind_run in Hraise.
  unfold log_call in Hraise. cbv beta iota in Hraise.
  destruct (chat_completions env _ _) as [|[text|]]; [| discriminate Hraise |];
    simpl user_memory; (split; [reflexivity|]); apply lookup_insert_eq.
Qed.

Lemma chat_apologises_when_completion_raises_witness :
  fst (chat env_down (req_of "u" "hello") st_hay)
  = Ok [(str "reply",
         str "Sorry, I had an issue talking to my brain (OpenAI). Try again in a moment.")]
  ∧ user_memory (snd (chat env_down (req_of "u" "hello") st_hay)) !! str "u"
    = Some (stored st_hay (str "u")
            ++ [{| entry_role := str "user"; entry_content := strip (str "hello") |};
                {| entry_role := str "assistant";
                   entry_content :=
                     str "Sorry, I had an issue talking to my brain (OpenAI). Try again in a moment." |}]).
Proof.
  apply (chat_apologises_when_completion_raises env_down (req_of "u" "hello") st_hay
           RemoteError);
    reflexivity.
Defined.

(** C9, as stated, fails: "note: weather in Paris" is a note command with
    the content "weather in Paris", but the weather rule comes first, and
    the caller's list gets two entries, none of them a note. *)
Lemma note_command_with_weather_not_saved :
  note_command plain_table (strip (str "note: weather in Paris")) = true
  ∧ note_content (strip (str "note: weather in Paris")) = str "weather in Paris"
  ∧ ¬ note_command_effect env_up (req_of "u" "note: weather in Paris") st0.
Proof.
  split; [reflexivity|]. split; [reflexivity|].
  intros [_ Hsaved].
  assert (Hmem := Hsaved ltac:(discriminate)).
  apply (f_equal (fmap (M := option) length)) in Hmem.
  vm_compute in Hmem. discriminate Hmem.
Qed.

(** C9, amended.  For a note command that does not contain "weather in ",
    the effect is the one of [note_command_effect]. *)
Theorem note_command_memory (env : Env) (req : ChatRequest) (st : State) :
  contains (lower (case_table env) (strip (message req))) (str "weather in ") = false ->
  note_command (case_table env) (strip (message req)) = true ->
  note_command_effect env req st.
Proof.
  intros Hw Hn. unfold note_command_effect. cbv zeta.
  pose proof (tools_note_run env (user_id req) _ st Hw Hn) as Hrun.
  destruct (note_content (strip (message req))) as [|c content] eqn:Hc.
  - split; [intros _ | intros Hne; by destruct Hne].
    rewrite (chat_tool_run _ _ _ _ _ Hrun). simpl. split; [reflexivity|].
    apply lookup_insert_eq.
  - split; [intros Hnil; discriminate Hnil | intros _].
    rewrite (chat_tool_run _ _ _ _ _ Hrun). simpl snd. simpl user_memory.
    rewrite lookup_insert_eq. unfold stored at 1. simpl user_memory.
    rewrite lookup_insert_eq. cbn [from_option id]. by rewrite <- app_assoc.
Qed.

Lemma note_command_memory_witness :
  note_command_effect env_down (req_of "u" "  Note: oats for Monday ") st_hay.
Proof.
  apply (note_command_memory env_down (req_of "u" "  Note: oats for Monday ") st_hay);
    reflexivity.
Defined.

Example note_saved :
  stored (snd (chat env_down (req_of "u" "  Note: oats for Monday ") st_hay)) (str "u")
  = [system_entry (str "[NOTE] buy hay");
     system_entry (str "[NOTE] oats for Monday");
     user_entry (str "Note: oats for Monday");
     assistant_entry (str "Got it, I saved a note: oats for Monday")].
Proof. reflexivity. Qed.

Example note_empty :
  stored (snd (chat env_down (req_of "u" "note x:") st_hay)) (str "u")
  = [system_entry (str "[NOTE] buy hay");
     user_entry (str "note x:");
     assistant_entry empty_note_reply].
Proof. reflexivity. Qed.

(** *** The city of the weather rule *)

Lemma startswith_prefix (s sub : pystr) :
  startswith s sub = true -> sub `prefix_of` s.
Proof.
  revert s. induction sub as [|p sub IH]; intros s H.
  - apply prefix_nil.
  - destruct s as [|c s]; simpl in H; [discriminate|].
    apply andb_prop in H as [Hc Hs]. apply N.eqb_eq in Hc as ->.
    apply prefix_cons. by apply IH.
Qed.

(** [find_from] returns the lowest offset at which [sub] occurs. *)
Lemma find_from_first (i : nat) (s sub : pystr) (j : nat) :
  find_from i s sub = Some j ->
  ∃ k, j = i + k
       ∧ startswith (drop k s) sub = true
       ∧ ∀ k', k' < k -> startswith (drop k' s) sub = false.
Proof.
  revert i. induction s as [|c s IH]; intros i; simpl.
  - destruct (startswith [] sub) eqn:Hs; [|discriminate].
    intros [= <-]. exists 0. rewrite Nat.add_0_r. repeat split; [done|lia].
  - destruct (startswith (c :: s) sub) eqn:Hs.
    + intros [= <-]. exists 0. rewrite Nat.add_0_r. repeat split; [done|lia].
    + intros H. apply IH in H as (k & -> & Hk & Hfirst).
      exists (S k). split; [lia|]. split; [exact Hk|].
      intros [|k'] Hlt; [exact Hs|]. apply Hfirst. lia.
Qed.

Lemma lower_char_single (tbl : CaseTable) (before : pystr) (c : N) (after : pystr) :
  c ≠ 304%N -> length (lower_char tbl before c after) = 1.
Proof.
  intros Hc. unfold lower_char.
  destruct (is_ascii_upper c); [reflexivity|].
  destruct (c <? 128)%N; [reflexivity|].
  destruct (N.eqb_spec c 304); [contradiction|reflexivity].
Qed.

(** Lower-casing keeps every code point at its offset as long as U+0130
    does not occur. *)
Lemma lower_from_length (tbl : CaseTable) (before s : pystr) :
  304%N ∉ s -> length (lower_from tbl before s) = length s.
Proof.
  revert before. induction s as [|c s IH]; intros before Hs; simpl; [reflexivity|].
  apply not_elem_of_cons in Hs as [Hc Hs].
  rewrite length_app, lower_char_single by done. by rewrite IH.
Qed.

(** X20. Off U+0130 the weather rule does what its comment says.  The message
    splits into the text before the first occurrence of the pattern, the
    eleven code points that make the occurrence, and the text after it; the
    city looked up is that text, stripped, without its trailing "? .,!",
    and "Bentonville" when nothing is left. *)
Lemma weather_city_without_dotted_capital_i (env : Env) (uid msg : pystr) (st : State) :
  304%N ∉ msg ->
  contains (lower (case_table env) msg) (str "weather in ") = true ->
  ∃ before found after,
    msg = before ++ found ++ after
    ∧ length found = 11
    ∧ str "weather in " `prefix_of` drop (length before) (lower (case_table env) msg)
    ∧ (∀ k, k < length before ->
            startswith (drop k (lower (case_table env) msg)) (str "weather in ") = false)
    ∧ maybe_handle_tools env uid msg st
      = (reply ← get_weather_for_city env
           (str_or (rstrip (str "? .,!") (strip after)) (str "Bentonville"));
         mret (Some reply)) st.
Proof.
  intros H304 Hin. rewrite (tools_weather_city env uid msg st Hin).
  unfold contains in Hin. unfold find.
  destruct (find_from 0 (lower (case_table env) msg) (str "weather in ")) as [j|] eqn:Hj;
    [|discriminate].
  apply find_from_first in Hj as (k & -> & Hk & Hfirst). rewrite Nat.add_0_l.
  pose proof (startswith_prefix _ _ Hk) as Hpre.
  assert (Hlen : k + 11 <= length msg).
  { apply prefix_length in Hpre. rewrite length_drop in Hpre.
    unfold lower in Hpre. rewrite lower_from_length in Hpre by done.
    change (length (str "weather in ")) with 11 in Hpre. lia. }
  exists (take k msg), (take 11 (drop k msg)), (drop (k + 11) msg).
  assert (Hk' : length (take k msg) = k) by (rewrite length_take; lia).
  rewrite Hk'.
  split; [|split; [|split; [|split]]].
  - rewrite <- (drop_drop msg 11 k), (take_drop 11 (drop k msg)).
    by rewrite take_drop.
  - rewrite length_take, length_drop. lia.
  - exact Hpre.
  - exact Hfirst.
  - unfold slice_from.
    replace (Z.of_nat k + 11 <? 0)%Z with false by (symmetry; apply Z.ltb_ge; lia).
    replace (Z.to_nat (Z.of_nat k + 11)) with (k + 11) by lia.
    reflexivity.
Qed.

Example weather_city_plain :
  ∀ st, maybe_handle_tools env_up (str "u") (str "What's the Weather In  new york ?!") st
        = (reply ← get_weather_for_city env_up (str "new york"); mret (Some reply)) st.
Proof. reflexivity. Qed.

Example weather_city_default :
  ∀ st, maybe_handle_tools env_up (str "u") (str "weather in ?") st
        = (reply ← get_weather_for_city env_up (str "Bentonville"); mret (Some reply)) st.
Proof. reflexivity. Qed.

(** C10 fails at a message with U+0130 before the pattern.  The lower-case
    form of "İ weather in Paris" is one code point longer than the
    message, the offset found in it is applied to the message as it is, and
    the city looked up is "aris", not the text "Paris" that follows the
    pattern. *)
Theorem weather_city_after_dotted_capital_i (env : Env) (uid : pystr) (st : State) :
  lower (case_table env) (304%N :: str " weather in Paris")
  = 105%N :: 775%N :: str " weather in paris"
  ∧ 304%N :: str " weather in Paris" = [304%N; 32%N] ++ str "weather in " ++ str "Paris"
  ∧ maybe_handle_tools env uid (304%N :: str " weather in Paris") st
    = (reply ← get_weather_for_city env (str "aris"); mret (Some reply)) st.
Proof.
  split; [reflexivity|]. split; [reflexivity|].
  rewrite tools_weather_city by reflexivity. reflexivity.
Qed.

Example weather_reply_after_dotted_capital_i :
  fst (chat env_up {| user_id := str "u";
                      message := 304%N :: str " weather in Paris";
                      history := [] |} st0)
  = Ok [(str "reply",
         str "The current temperature in aris is 21.5" ++ [176%N]
         ++ str "C with wind speeds of 7.2 km/h.")]
  ∧ calls (snd (chat env_up {| user_id := str "u";
                               message := 304%N :: str " weather in Paris";
                               history := [] |} st0))
    = [HttpGet (str "https://geocoding-api.open-meteo.com/v1/search?name=aris&count=1");
       HttpGet (str "https://api.open-meteo.com/v1/forecast?latitude=36.37&longitude=-94.21&current_weather=true")].
Proof. split; reflexivity. Qed.

(** ** Further properties *)

(** *** The weather tool *)

(** What [get_weather_for_city] returns and requests is fixed by the
    answers of the two services; the state only passes through. *)
Lemma get_weather_for_city_outcome (env : Env) (city : pystr) (st : State) :
  get_weather_for_city env city st
  = (Ok (fst (weather_outcome env city)),
     {| user_memory := user_memory st;
        calls := calls st ++ (HttpGet <$> snd (weather_outcome env city)) |}).
Proof.
  unfold get_weather_for_city, try_except, requests_get_geocode, requests_get_forecast,
    weather_outcome.
  cbv zeta. fold (geocode_url city). rewrite !bind_run. unfold log_call at 1.
  cbv beta iota. simpl user_memory. simpl calls.
  destruct (geocode env (geocode_url city)) as [| |lat lon]; try reflexivity.
  unfold mret, M_ret. cbv beta iota. fold (forecast_url lat lon).
  rewrite !bind_run. unfold log_call. cbv beta iota. simpl user_memory. simpl calls.
  destruct (forecast env (forecast_url lat lon)) as [| |temp wind];
    simpl; rewrite <- app_assoc; reflexivity.
Qed.

(** X1. The weather tool never raises and never touches the memory.  It
    requests the geocoding URL of the city first and at most one more URL,
    and its reply is one of four texts: the failure text, the unknown-city
    text, the not-available text, or a report. *)
Theorem get_weather_for_city_total (env : Env) (city : pystr) (st : State) :
  ∃ reply urls,
    get_weather_for_city env city st
    = (Ok reply, {| user_memory := user_memory st;
                    calls := calls st ++ (HttpGet <$> geocode_url city :: urls) |})
    ∧ length urls <= 1
    ∧ (reply = str "Sorry, I couldn't retrieve the weather right now."
       ∨ reply = str "I couldn't find weather information for '" ++ city ++ str "'."
       ∨ reply = str "Weather information is not available right now."
       ∨ ∃ temp wind,
           reply = str "The current temperature in " ++ city ++ str " is " ++ temp
                   ++ [176%N] ++ str "C with wind speeds of " ++ wind ++ str " km/h.").
Proof.
  rewrite get_weather_for_city_outcome. unfold weather_outcome.
  destruct (geocode env (geocode_url city)) as [| |lat lon].
  - exists weather_failed_reply, []. split; [reflexivity|]. split; [simpl; lia|]. by left.
  - exists (city_unknown_reply city), []. split; [reflexivity|]. split; [simpl; lia|].
    right. by left.
  - eexists _, [forecast_url lat lon]. split; [reflexivity|]. split; [simpl; lia|].
    simpl fst. destruct (forecast env (forecast_url lat lon)) as [| |temp wind].
    + by left.
    + right. right. by left.
    + right. right. right. by exists temp, wind.
Qed.

(** X2. When the geocoder raises, or the geocoder answers and the forecast
    raises, the exception is caught and the reply is the failure text. *)
Theorem get_weather_for_city_remote_failure (env : Env) (city : pystr) (st : State) :
  geocode env (geocode_url city) = GeoRaises
  ∨ (∃ lat lon, geocode env (geocode_url city) = GeoFirst lat lon
                ∧ forecast env (forecast_url lat lon) = ForecastRaises) ->
  fst (get_weather_for_city env city st)
  = Ok (str "Sorry, I couldn't retrieve the weather right now.").
Proof.
  intros H. rewrite get_weather_for_city_outcome. unfold weather_outcome. simpl fst.
  destruct H as [-> | (lat & lon & -> & Hf)]; [reflexivity|].
  simpl. by rewrite Hf.
Qed.

Lemma get_weather_for_city_remote_failure_witness :
  fst (get_weather_for_city env_half (str "Rome") st0)
  = Ok (str "Sorry, I couldn't retrieve the weather right now.").
Proof.
  apply (get_weather_for_city_remote_failure env_half (str "Rome") st0).
  right. exists (str "41.89"), (str "12.51"). split; reflexivity.
Defined.

(** X3. When the geocoder has no result for the city, the reply names the
    city as it was passed and the forecast is not requested. *)
Theorem get_weather_for_city_no_results (env : Env) (city : pystr) (st : State) :
  geocode env (geocode_url city) = GeoNoResults ->
  get_weather_for_city env city st
  = (Ok (str "I couldn't find weather information for '" ++ city ++ str "'."),
     {| user_memory := user_memory st;
        calls := calls st ++ [HttpGet (geocode_url city)] |}).
Proof.
  intros H. rewrite get_weather_for_city_outcome. unfold weather_outcome.
  by rewrite H.
Qed.

Lemma get_weather_for_city_no_results_witness :
  get_weather_for_city env_nowhere (str "Atlantis") st0
  = (Ok (str "I couldn't find weather information for '" ++ str "Atlantis" ++ str "'."),
     {| user_memory := user_memory st0;
        calls := calls st0 ++ [HttpGet (geocode_url (str "Atlantis"))] |}).
Proof.
  apply (get_weather_for_city_no_results env_nowhere (str "Atlantis") st0).
  reflexivity.
Defined.

(** X4. When both services answer, the forecast is requested at the
    latitude and longitude of the first geocoding result, after the
    geocoding request, and the reply reports the temperature and the wind
    speed for the city as it was passed. *)
Theorem get_weather_for_city_report (env : Env) (city : pystr) (st : State)
    (lat lon temp wind : pystr) :
  geocode env (geocode_url city) = GeoFirst lat lon ->
  forecast env (forecast_url lat lon) = ForecastCurrent temp wind ->
  get_weather_for_city env city st
  = (Ok (str "The current temperature in " ++ city ++ str " is " ++ temp
         ++ [176%N] ++ str "C with wind speeds of " ++ wind ++ str " km/h."),
     {| user_memory := user_memory st;
        calls := calls st ++ [HttpGet (geocode_url city);
                              HttpGet (forecast_url lat lon)] |}).
Proof.
  intros Hg Hf. rewrite get_weather_for_city_outcome. unfold weather_outcome.
  by rewrite Hg, Hf.
Qed.

Lemma get_weather_for_city_report_witness :
  get_weather_for_city env_up (str "Bentonville") st_hay
  = (Ok (str "The current temperature in " ++ str "Bentonville" ++ str " is " ++ str "21.5"
         ++ [176%N] ++ str "C with wind speeds of " ++ str "7.2" ++ str " km/h."),
     {| user_memory := user_memory st_hay;
        calls := calls st_hay ++ [HttpGet (geocode_url (str "Bentonville"));
                                  HttpGet (forecast_url (str "36.37") (str "-94.21"))] |}).
Proof.
  apply (get_weather_for_city_report env_up (str "Bentonville") st_hay
           (str "36.37") (str "-94.21") (str "21.5") (str "7.2"));
    reflexivity.
Defined.

(** *** The three paths of /chat *)

Lemma tools_weather_outcome (env : Env) (uid msg : pystr) (st : State) :
  contains (lower (case_table env) msg) (str "weather in ") = true ->
  maybe_handle_tools env uid msg st
  = (let outcome :=
       weather_outcome env
         (city_at (find (lower (case_table env) msg) (str "weather in ") + 11) msg) in
     (Ok (Some (fst outcome)),
      {| user_memory := user_memory st;
         calls := calls st ++ (HttpGet <$> snd outcome) |})).
Proof.
  intros H. rewrite tools_weather_city by exact H.
  fold (city_at (find (lower (case_table env) msg) (str "weather in ") + 11) msg).
  by run_with get_weather_for_city_outcome.
Qed.

Lemma chat_weather_run (env : Env) (req : ChatRequest) (st : State) :
  contains (lower (case_table env) (strip (message req))) (str "weather in ") = true ->
  chat env req st
  = (let msg := strip (message req) in
     let outcome :=
       weather_outcome env
         (city_at (find (lower (case_table env) msg) (str "weather in ") + 11) msg) in
     (reply_response (fst outcome),
      {| user_memory :=
           <[user_id req := stored st (user_id req)
                            ++ [user_entry msg; assistant_entry (fst outcome)]]>
             (user_memory st);
         calls := calls st ++ (HttpGet <$> snd outcome) |})).
Proof.
  intros H. cbv zeta.
  by rewrite (chat_tool_run _ _ _ _ _ (tools_weather_outcome env (user_id req) _ st H)).
Qed.

Lemma chat_note_run (env : Env) (req : ChatRequest) (st : State) :
  contains (lower (case_table env) (strip (message req))) (str "weather in ") = false ->
  note_command (case_table env) (strip (message req)) = true ->
  chat env req st
  = (let msg := strip (message req) in
     match note_content msg with
     | [] =>
         (reply_response empty_note_reply,
          {| user_memory :=
               <[user_id req := stored st (user_id req)
                                ++ [user_entry msg; assistant_entry empty_note_reply]]>
                 (user_memory st);
             calls := calls st |})
     | _ :: _ =>
         (reply_response (str "Got it, I saved a note: " ++ note_content msg),
          {| user_memory :=
               <[user_id req := stored st (user_id req)
                                ++ [system_entry (str "[NOTE] " ++ note_content msg);
                                    user_entry msg;
                                    assistant_entry
                                      (str "Got it, I saved a note: " ++ note_content msg)]]>
                 (user_memory st);
             calls := calls st |})
     end).
Proof.
  intros Hw Hn. cbv zeta.
  pose proof (tools_note_run env (user_id req) _ st Hw Hn) as Hrun.
  destruct (note_content (strip (message req))) as [|c content] eqn:Hc.
  - by rewrite (chat_tool_run _ _ _ _ _ Hrun).
  - rewrite (chat_tool_run _ _ _ _ _ Hrun). unfold stored at 1. simpl user_memory.
    rewrite lookup_insert_eq, insert_insert_eq. cbn [from_option id].
    by rewrite <- app_assoc.
Qed.

(** The path a message takes. *)
Lemma chat_paths (env : Env) (msg : pystr) :
  contains (lower (case_table env) msg) (str "weather in ") = true
  ∨ (contains (lower (case_table env) msg) (str "weather in ") = false
     ∧ note_command (case_table env) msg = true)
  ∨ tool_pattern (case_table env) msg = false.
Proof.
  unfold tool_pattern, note_command.
  destruct (contains _ _); [by left|]. right.
  destruct (startswith _ (str "note:")); [by left|].
  destruct (startswith _ (str "note ")); [by left|]. by right.
Qed.

Lemma chat_ends_with_pair (env : Env) (req : ChatRequest) (st : State) :
  ∃ reply added,
    fst (chat env req st) = reply_response reply
    ∧ stored (snd (chat env req st)) (user_id req)
      = stored st (user_id req) ++ added
        ++ [user_entry (strip (message req)); assistant_entry reply]
    ∧ length added <= 1.
Proof.
  destruct (chat_paths env (strip (message req))) as [Hw | [[Hw Hn] | Hnone]].
  - rewrite (chat_weather_run env req st Hw). cbv zeta.
    eexists _, []. split; [reflexivity|]. unfold stored at 1. simpl.
    rewrite lookup_insert_eq. split; [reflexivity | lia].
  - rewrite (chat_note_run env req st Hw Hn). cbv zeta.
    destruct (note_content (strip (message req))) as [|c content].
    + eexists _, []. split; [reflexivity|]. unfold stored at 1. simpl.
      rewrite lookup_insert_eq. split; [reflexivity | lia].
    + eexists _, [_]. split; [reflexivity|]. unfold stored at 1. simpl.
      rewrite lookup_insert_eq. split; [reflexivity | simpl; lia].
  - rewrite (chat_fallback_run env req st Hnone). cbv zeta.
    eexists _, []. split; [reflexivity|]. unfold stored at 1. simpl.
    rewrite lookup_insert_eq. split; [reflexivity | lia].
Qed.

(** X5. Whatever the message and whatever the remote services do, /chat
    has a reply, and the one exception that can leave it is that of the
    response constructor: it returns the JSON object with the one key
    "reply" when the reply can be encoded as UTF-8 and raises
    UnicodeEncodeError when it cannot.  Either way the caller's list
    afterwards ends with the stripped message as a user entry and that reply
    as an assistant entry; at most one entry (a note) comes between the old
    list and this pair. *)
Theorem chat_replies_or_fails_to_encode (env : Env) (req : ChatRequest) (st : State) :
  ∃ reply added,
    fst (chat env req st)
    = (if utf8_encodable reply
       then Ok [(str "reply", reply)]
       else Raise UnicodeEncodeError)
    ∧ stored (snd (chat env req st)) (user_id req)
      = stored st (user_id req) ++ added
        ++ [{| entry_role := str "user"; entry_content := strip (message req) |};
            {| entry_role := str "assistant"; entry_content := reply |}]
    ∧ length added <= 1.
Proof. exact (chat_ends_with_pair env req st). Qed.

(** X6. Serving one /chat request makes at most two outbound requests, and
    at most one of them goes to the language model. *)
Theorem chat_at_most_two_calls (env : Env) (req : ChatRequest) (st : State) :
  ∃ new,
    calls (snd (chat env req st)) = calls st ++ new
    ∧ length new <= 2
    ∧ length (List.filter is_completion_call new) <= 1.
Proof.
  destruct (chat_paths env (strip (message req))) as [Hw | [[Hw Hn] | Hnone]].
  - rewrite (chat_weather_run env req st Hw). cbv zeta. simpl snd. simpl calls.
    eexists. split; [reflexivity|]. unfold weather_outcome.
    destruct (geocode env _) as [| |lat lon]; simpl; repeat split; lia.
  - rewrite (chat_note_run env req st Hw Hn). cbv zeta.
    exists []. destruct (note_content _); simpl; rewrite app_nil_r;
      repeat split; lia.
  - rewrite (chat_fallback_run env req st Hnone). cbv zeta. simpl snd. simpl calls.
    eexists. split; [reflexivity|]. simpl. lia.
Qed.

(** X7. A note command that does not contain "weather in " is handled
    without any outbound request: the note goes to no remote service. *)
Theorem note_command_makes_no_call (env : Env) (req : ChatRequest) (st : State) :
  contains (lower (case_table env) (strip (message req))) (str "weather in ") = false ->
  note_command (case_table env) (strip (message req)) = true ->
  calls (snd (chat env req st)) = calls st.
Proof.
  intros Hw Hn. rewrite (chat_note_run env req st Hw Hn). cbv zeta.
  by destruct (note_content _).
Qed.

Lemma note_command_makes_no_call_witness :
  calls (snd (chat env_up (req_of "u" "NOTE buy oats") st_hay)) = calls st_hay.
Proof.
  apply (note_command_makes_no_call env_up (req_of "u" "NOTE buy oats") st_hay);
    reflexivity.
Defined.

(** X8. The weather rule comes first.  A message that contains
    "weather in " adds the user entry and the weather reply to the caller's
    list and nothing else, also when it starts like a note command; every
    outbound request is a GET.  The reply stored is the one returned, when
    the response can be encoded. *)
Theorem weather_message_adds_pair (env : Env) (req : ChatRequest) (st : State) :
  contains (lower (case_table env) (strip (message req))) (str "weather in ") = true ->
  ∃ reply urls,
    fst (chat env req st)
    = (if utf8_encodable reply
       then Ok [(str "reply", reply)]
       else Raise UnicodeEncodeError)
    ∧ user_memory (snd (chat env req st)) !! user_id req
      = Some (stored st (user_id req)
              ++ [{| entry_role := str "user"; entry_content := strip (message req) |};
                  {| entry_role := str "assistant"; entry_content := reply |}])
    ∧ calls (snd (chat env req st)) = calls st ++ (HttpGet <$> urls).
Proof.
  intros Hw. rewrite (chat_weather_run env req st Hw). cbv zeta.
  eexists _, _. split; [reflexivity|]. simpl snd. simpl user_memory.
  rewrite lookup_insert_eq. split; reflexivity.
Qed.

Lemma weather_message_adds_pair_witness :
  ∃ reply urls,
    fst (chat env_up (req_of "u" "note: weather in Paris") st_hay)
    = (if utf8_encodable reply
       then Ok [(str "reply", reply)]
       else Raise UnicodeEncodeError)
    ∧ user_memory (snd (chat env_up (req_of "u" "note: weather in Paris") st_hay))
        !! str "u"
      = Some (stored st_hay (str "u")
              ++ [{| entry_role := str "user";
                     entry_content := strip (str "note: weather in Paris") |};
                  {| entry_role := str "assistant"; entry_content := reply |}])
    ∧ calls (snd (chat env_up (req_of "u" "note: weather in Paris") st_hay))
      = calls st_hay ++ (HttpGet <$> urls).
Proof.
  apply (weather_message_adds_pair env_up (req_of "u" "note: weather in Paris") st_hay).
  reflexivity.
Defined.

(** X9. The tool hook never raises.  It returns None exactly when the
    message matches no pattern, and then it has changed nothing and
    requested nothing. *)
Theorem maybe_handle_tools_none_iff (env : Env) (uid msg : pystr) (st : State) :
  ∃ result st1,
    maybe_handle_tools env uid msg st = (Ok result, st1)
    ∧ (result = None ↔ tool_pattern (case_table env) msg = false)
    ∧ (result = None -> st1 = st).
Proof.
  destruct (tool_pattern (case_table env) msg) eqn:H.
  - destruct (tools_some_run env uid msg st H) as (reply & st1 & urls & added & Hrun & _).
    exists (Some reply), st1. split; [exact Hrun|]. split; [|discriminate].
    split; discriminate.
  - exists None, st. split; [by apply tools_none_run|]. by split.
Qed.

(** X10. On the fallback path, when the completion has a content, the
    reply is that content without its surrounding whitespace: it is
    returned when it can be encoded as UTF-8, and the response constructor
    raises UnicodeEncodeError when it cannot. *)
Theorem chat_fallback_reply_stripped (env : Env) (req : ChatRequest) (st : State)
    (text : pystr) :
  tool_pattern (case_table env) (strip (message req)) = false ->
  chat_completions env (str "gpt-4.1-mini")
    (build_messages (stored st (user_id req)) (to_entry <$> history req)
       (strip (message req)))
  = CompletionContent (Some text) ->
  fst (chat env req st)
  = (if utf8_encodable (strip text)
     then Ok [(str "reply", strip text)]
     else Raise UnicodeEncodeError).
Proof.
  intros H Hc. rewrite (chat_fallback_run env req st H). cbv zeta. simpl fst.
  by rewrite Hc.
Qed.

Lemma chat_fallback_reply_stripped_witness :
  fst (chat env_up (req_of "u" "hello") st_hay)
  = (if utf8_encodable (strip (str " Hello! "))
     then Ok [(str "reply", strip (str " Hello! "))]
     else Raise UnicodeEncodeError).
Proof.
  apply (chat_fallback_reply_stripped env_up (req_of "u" "hello") st_hay (str " Hello! "));
    reflexivity.
Defined.

(** X11. /transcribe has no handler for a failure of the transcription
    API: the exception leaves the endpoint, no JSON is returned, and the
    memory is as before. *)
Theorem transcribe_audio_propagates (env : Env) (file : UploadFile) (st : State) :
  audio_transcriptions env (str "whisper-1") (filename file) (file_bytes file)
    (content_type file) = TranscriptionRaises ->
  fst (transcribe_audio env file st) = Raise RemoteError
  ∧ user_memory (snd (transcribe_audio env file st)) = user_memory st.
Proof.
  intros H. rewrite transcribe_audio_run. simpl. by rewrite H.
Qed.

Lemma transcribe_audio_propagates_witness :
  fst (transcribe_audio env_down hay_wav st_hay) = Raise RemoteError
  ∧ user_memory (snd (transcribe_audio env_down hay_wav st_hay)) = user_memory st_hay.
Proof.
  apply (transcribe_audio_propagates env_down hay_wav st_hay). reflexivity.
Defined.

(** *** The window over several requests *)

Lemma slice_last_app_pair {A} (l : list A) (a b : A) :
  ∃ w, slice_from (-10) (l ++ [a; b]) = w ++ [a; b] ∧ length w <= 8.
Proof.
  exists (drop (length l + 2 - 10) l).
  rewrite slice_last_drop, length_app. simpl length.
  rewrite drop_app_le by lia. split; [reflexivity|].
  rewrite length_drop. lia.
Qed.

Lemma slice_last_app_ge {A} (older recent : list A) :
  10 <= length recent ->
  slice_from (-10) (older ++ recent) = drop (length recent - 10) recent.
Proof.
  intros H. rewrite slice_last_drop, length_app.
  rewrite drop_app_ge by lia. f_equal. lia.
Qed.

(** X12. What one /chat request stores, the next fallback request of the
    same user forwards: the conversation sent to the language model holds
    the user entry and the reply of the previous request, right before the
    window of the request's history, after at most 8 earlier entries of the
    memory.  This is so also when the previous request raised in the
    response constructor, its reply being stored before. *)
Theorem next_chat_forwards_exchange (env1 env2 : Env) (req1 req2 : ChatRequest)
    (st : State) :
  user_id req2 = user_id req1 ->
  tool_pattern (case_table env2) (strip (message req2)) = false ->
  ∃ reply earlier,
    fst (chat env1 req1 st)
    = (if utf8_encodable reply
       then Ok [(str "reply", reply)]
       else Raise UnicodeEncodeError)
    ∧ calls (snd (chat env2 req2 (snd (chat env1 req1 st))))
      = calls (snd (chat env1 req1 st))
        ++ [ChatCompletionsCreate (str "gpt-4.1-mini")
              ([system_entry system_prompt] ++ earlier
               ++ [user_entry (strip (message req1)); assistant_entry reply]
               ++ slice_from (-10) (to_entry <$> history req2)
               ++ [user_entry (strip (message req2))])]
    ∧ length earlier <= 8.
Proof.
  intros Huid Hnone.
  destruct (chat_ends_with_pair env1 req1 st) as (reply & added & Hreply & Hmem & _).
  rewrite (chat_fallback_run env2 req2 _ Hnone). cbv zeta. simpl snd. simpl calls.
  rewrite Huid, Hmem, app_assoc.
  destruct (slice_last_app_pair (stored st (user_id req1) ++ added)
              (user_entry (strip (message req1))) (assistant_entry reply))
    as (w & Hw & Hlen).
  exists reply, w. split; [exact Hreply|]. split; [|exact Hlen].
  unfold build_messages. rewrite Hw. by rewrite <- !app_assoc.
Qed.

Lemma next_chat_forwards_exchange_witness :
  ∃ reply earlier,
    fst (chat env_up (req_of "u" "weather in Rome") st_hay)
    = (if utf8_encodable reply
       then Ok [(str "reply", reply)]
       else Raise UnicodeEncodeError)
    ∧ calls (snd (chat env_down (req_of "u" "and tomorrow?")
                    (snd (chat env_up (req_of "u" "weather in Rome") st_hay))))
      = calls (snd (chat env_up (req_of "u" "weather in Rome") st_hay))
        ++ [ChatCompletionsCreate (str "gpt-4.1-mini")
              ([system_entry system_prompt] ++ earlier
               ++ [user_entry (strip (str "weather in Rome")); assistant_entry reply]
               ++ slice_from (-10) (to_entry <$> [])
               ++ [user_entry (strip (str "and tomorrow?"))])]
    ∧ length earlier <= 8.
Proof.
  apply (next_chat_forwards_exchange env_up env_down (req_of "u" "weather in Rome")
           (req_of "u" "and tomorrow?") st_hay);
    reflexivity.
Defined.

(** X13. Entries that have ten or more later entries after them in the
    caller's list are not forwarded: the conversation is built from the last
    ten of the later entries alone. *)
Theorem old_entries_not_forwarded (env : Env) (req : ChatRequest) (st : State)
    (older recent : list Entry) :
  stored st (user_id req) = older ++ recent ->
  10 <= length recent ->
  tool_pattern (case_table env) (strip (message req)) = false ->
  calls (snd (chat env req st))
  = calls st
    ++ [ChatCompletionsCreate (str "gpt-4.1-mini")
          ([system_entry system_prompt] ++ drop (length recent - 10) recent
           ++ slice_from (-10) (to_entry <$> history req)
           ++ [user_entry (strip (message req))])].
Proof.
  intros Hmem Hlen Hnone.
  rewrite (chat_fallback_run env req st Hnone). cbv zeta. simpl snd. simpl calls.
  unfold build_messages. by rewrite Hmem, slice_last_app_ge.
Qed.

Lemma old_entries_not_forwarded_witness :
  calls (snd (chat env_up (req_of "u" "hello") st_long))
  = calls st_long
    ++ [ChatCompletionsCreate (str "gpt-4.1-mini")
          ([system_entry system_prompt]
           ++ drop (length ((fun n => user_entry (str "m" ++ [N.of_nat n])) <$> seq 50 10) - 10)
                ((fun n => user_entry (str "m" ++ [N.of_nat n])) <$> seq 50 10)
           ++ slice_from (-10) (to_entry <$> [])
           ++ [user_entry (strip (str "hello"))])].
Proof.
  apply (old_entries_not_forwarded env_up (req_of "u" "hello") st_long
           ((fun n => user_entry (str "m" ++ [N.of_nat n])) <$> seq 48 2)
           ((fun n => user_entry (str "m" ++ [N.of_nat n])) <$> seq 50 10)).
  - reflexivity.
  - simpl. lia.
  - reflexivity.
Defined.

Lemma stored_insert (m : gmap pystr (list Entry)) (cs : list Call) (uid : pystr)
    (l : list Entry) :
  stored {| user_memory := <[uid := l]> m; calls := cs |} uid = l.
Proof. unfold stored. simpl. by rewrite lookup_insert_eq. Qed.

(** X14. What /chat returns, requests and stores for a user depends on the
    memory through the list of that user alone: in two states that agree on
    the caller's list, the reply, the outbound requests and the caller's new
    list are the same. *)
Theorem chat_reads_own_list_only (env : Env) (req : ChatRequest) (st1 st2 : State) :
  stored st1 (user_id req) = stored st2 (user_id req) ->
  fst (chat env req st1) = fst (chat env req st2)
  ∧ stored (snd (chat env req st1)) (user_id req)
    = stored (snd (chat env req st2)) (user_id req)
  ∧ ∃ new, calls (snd (chat env req st1)) = calls st1 ++ new
           ∧ calls (snd (chat env req st2)) = calls st2 ++ new.
Proof.
  intros H.
  destruct (chat_paths env (strip (message req))) as [Hw | [[Hw Hn] | Hnone]].
  - rewrite !(chat_weather_run env req _ Hw). cbv zeta.
    simpl fst. simpl snd. simpl calls. rewrite !stored_insert, H.
    repeat split. by eexists.
  - rewrite !(chat_note_run env req _ Hw Hn). cbv zeta.
    destruct (note_content (strip (message req)));
      simpl fst; simpl snd; simpl calls; rewrite !stored_insert, H;
      repeat split; exists []; by rewrite !app_nil_r.
  - rewrite !(chat_fallback_run env req _ Hnone). cbv zeta.
    simpl fst. simpl snd. simpl calls. rewrite !stored_insert, H.
    repeat split. by eexists.
Qed.

Lemma chat_reads_own_list_only_witness :
  fst (chat env_up (req_of "u" "hello") st_hay)
  = fst (chat env_up (req_of "u" "hello") st_hay_v)
  ∧ stored (snd (chat env_up (req_of "u" "hello") st_hay)) (str "u")
    = stored (snd (chat env_up (req_of "u" "hello") st_hay_v)) (str "u")
  ∧ ∃ new, calls (snd (chat env_up (req_of "u" "hello") st_hay)) = calls st_hay ++ new
           ∧ calls (snd (chat env_up (req_of "u" "hello") st_hay_v))
             = calls st_hay_v ++ new.
Proof.
  apply (chat_reads_own_list_only env_up (req_of "u" "hello") st_hay st_hay_v).
  reflexivity.
Defined.

(** X15. The memory grows without bound: after any sequence of /chat
    requests of one user, that user's list is longer than before by at
    least two entries per request. *)
Theorem chats_grow_memory (rs : list (Env * Request)) (st : State) (uid : pystr) :
  Forall (fun er => ∃ req, er.2 = PostChat req ∧ user_id req = uid) rs ->
  length (stored st uid) + 2 * length rs <= length (stored (serve rs st) uid).
Proof.
  intros H. revert st. induction H as [|[env r] rs (req & Hr & Hu) _ IH]; intros st.
  - simpl. lia.
  - simpl in Hr. subst r uid. cbn [serve handle]. etrans; [|apply IH].
    destruct (chat_memory env req st) as (added & Hmem & Hlen).
    unfold stored at 2. rewrite Hmem, lookup_insert_eq. cbn [from_option id length].
    rewrite length_app. lia.
Qed.

Lemma chats_grow_memory_witness :
  length (stored st_hay (str "u")) + 2 * length [(env_up, PostChat (req_of "u" "hello"));
                                                 (env_down, PostChat (req_of "u" "note:"))]
  <= length (stored (serve [(env_up, PostChat (req_of "u" "hello"));
                            (env_down, PostChat (req_of "u" "note:"))] st_hay) (str "u")).
Proof.
  apply (chats_grow_memory [(env_up, PostChat (req_of "u" "hello"));
                            (env_down, PostChat (req_of "u" "note:"))] st_hay (str "u")).
  repeat (constructor; [eexists; split; reflexivity|]). constructor.
Defined.

(** *** The shape of the stored lists *)

Lemma chat_adds_exchange (env : Env) (req : ChatRequest) (st : State) :
  exchanges (stored st (user_id req)) ->
  ∃ l, user_memory (snd (chat env req st)) = <[user_id req := l]> (user_memory st)
       ∧ exchanges l.
Proof.
  intros Hl.
  destruct (chat_paths env (strip (message req))) as [Hw | [[Hw Hn] | Hnone]].
  - rewrite (chat_weather_run env req st Hw). cbv zeta.
    eexists. split; [reflexivity|]. by apply exchanges_pair.
  - rewrite (chat_note_run env req st Hw Hn). cbv zeta.
    destruct (note_content (strip (message req))) as [|c content] eqn:Hc.
    + eexists. split; [reflexivity|]. by apply exchanges_pair.
    + eexists. split; [reflexivity|]. by apply exchanges_note.
  - rewrite (chat_fallback_run env req st Hnone). cbv zeta.
    eexists. split; [reflexivity|]. by apply exchanges_pair.
Qed.

Lemma handle_keeps_exchanges (env : Env) (r : Request) (st : State) :
  memory_exchanges st -> memory_exchanges (snd (handle env r st)).
Proof.
  intros Hst. destruct r as [req|file|]; simpl.
  - assert (Hl : exchanges (stored st (user_id req))).
    { unfold stored. destruct (user_memory st !! user_id req) as [l|] eqn:Hl; simpl.
      - by apply (Hst (user_id req)).
      - constructor. }
    destruct (chat_adds_exchange env req st Hl) as (l & Hmem & Hex).
    intros uid l' Hlook. rewrite Hmem in Hlook.
    destruct (decide (uid = user_id req)) as [->|Hne].
    + rewrite lookup_insert_eq in Hlook. by injection Hlook as <-.
    + rewrite lookup_insert_ne in Hlook by done. by apply (Hst uid).
  - rewrite transcribe_audio_run. exact Hst.
  - exact Hst.
Qed.

(** X16. The stored lists keep their shape.  If every stored list is a
    sequence of exchanges (user entry, then assistant entry, some preceded
    by the system entry of a non-empty note), it is so after any sequence
    of requests: the roles a client sends in [history] never reach the
    memory, no user entry is left without its reply, and no empty note is
    stored. *)
Theorem serve_keeps_exchanges (rs : list (Env * Request)) (st : State) :
  memory_exchanges st -> memory_exchanges (serve rs st).
Proof.
  revert st. induction rs as [|[env r] rs IH]; intros st Hst; simpl; [exact Hst|].
  apply IH. by apply handle_keeps_exchanges.
Qed.

Lemma serve_keeps_exchanges_witness :
  memory_exchanges
    (serve [(env_up, PostChat {| user_id := str "u"; message := str "hi";
                                 history := [{| role := str "tool"; content := str "x" |}] |});
            (env_down, PostChat (req_of "u" "note: oats"));
            (env_down, PostTranscribe hay_wav)] st0).
Proof.
  apply (serve_keeps_exchanges
           [(env_up, PostChat {| user_id := str "u"; message := str "hi";
                                 history := [{| role := str "tool"; content := str "x" |}] |});
            (env_down, PostChat (req_of "u" "note: oats"));
            (env_down, PostTranscribe hay_wav)] st0).
  intros uid l H. simpl in H. rewrite lookup_empty in H. discriminate H.
Defined.

(** *** Stripping *)

Lemma rev_is_reverse {A} (l : list A) : rev l = reverse l.
Proof. unfold reverse. apply rev_alt. Qed.

Lemma lstrip_where_split (p : N -> bool) (s : pystr) :
  ∃ a, s = a ++ lstrip_where p s ∧ Forall (fun c => p c = true) a.
Proof.
  induction s as [|c s (a & Hs & Ha)]; simpl.
  - by exists [].
  - destruct (p c) eqn:Hc.
    + exists (c :: a). split; [by rewrite Hs at 1 | by constructor].
    + by exists [].
Qed.

Lemma lstrip_where_head (p : N -> bool) (s : pystr) (c : N) :
  head (lstrip_where p s) = Some c -> p c = false.
Proof.
  induction s as [|x s IH]; simpl; [discriminate|].
  destruct (p x) eqn:Hx; [exact IH|]. by intros [= <-].
Qed.

Lemma rstrip_where_split (p : N -> bool) (s : pystr) :
  ∃ b, s = rstrip_where p s ++ b ∧ Forall (fun c => p c = true) b.
Proof.
  unfold rstrip_where.
  destruct (lstrip_where_split p (rev s)) as (a & Hs & Ha).
  exists (rev a). split.
  - by rewrite <- rev_app_distr, <- Hs, rev_involutive.
  - rewrite rev_is_reverse. by apply Forall_reverse.
Qed.

Lemma rstrip_where_last (p : N -> bool) (s : pystr) (c : N) :
  last (rstrip_where p s) = Some c -> p c = false.
Proof.
  unfold rstrip_where. rewrite (rev_is_reverse (lstrip_where p (rev s))), last_reverse.
  apply lstrip_where_head.
Qed.

Lemma rstrip_where_head (p : N -> bool) (s : pystr) (c : N) :
  head (rstrip_where p s) = Some c -> head s = Some c.
Proof.
  destruct (rstrip_where_split p s) as (b & Hs & _). intros H.
  rewrite Hs, head_app. by rewrite H.
Qed.

Lemma strip_head (s : pystr) (c : N) : head (strip s) = Some c -> isspace c = false.
Proof.
  unfold strip. intros H. apply rstrip_where_head in H.
  by apply lstrip_where_head in H.
Qed.

(** X17. The message that /chat works on, stores and forwards is the
    request's message without the whitespace around it: the message is
    whitespace, then the stripped text, then whitespace, and the stripped
    text neither starts nor ends with a whitespace code point. *)
Theorem strip_removes_surrounding_whitespace (s : pystr) :
  ∃ a b,
    s = a ++ strip s ++ b
    ∧ Forall (fun c => isspace c = true) a
    ∧ Forall (fun c => isspace c = true) b
    ∧ (∀ c, head (strip s) = Some c -> isspace c = false)
    ∧ (∀ c, last (strip s) = Some c -> isspace c = false).
Proof.
  destruct (lstrip_where_split isspace s) as (a & Hs & Ha).
  destruct (rstrip_where_split isspace (lstrip_where isspace s)) as (b & Ht & Hb).
  exists a, b. fold (strip s) in Ht. split; [by rewrite <- Ht|].
  split; [exact Ha|]. split; [exact Hb|].
  split; [apply strip_head|]. intros c. apply rstrip_where_last.
Qed.

(** X18. The city that the weather rule looks up is never empty, does not
    start with whitespace and does not end with any of "? .,!". *)
Theorem weather_city_clean (env : Env) (uid msg : pystr) (st : State) :
  contains (lower (case_table env) msg) (str "weather in ") = true ->
  ∃ city,
    maybe_handle_tools env uid msg st
    = (reply ← get_weather_for_city env city; mret (Some reply)) st
    ∧ city ≠ []
    ∧ (∀ c, head city = Some c -> isspace c = false)
    ∧ (∀ c, last city = Some c -> char_in (str "? .,!") c = false).
Proof.
  intros H. eexists. split; [exact (tools_weather_city env uid msg st H)|].
  set (after := slice_from _ msg).
  destruct (rstrip (str "? .,!") (strip after)) as [|x r] eqn:Hr; unfold str_or.
  - split; [discriminate|]. split; intros c [= <-]; reflexivity.
  - split; [discriminate|]. rewrite <- Hr. split; intros c Hc.
    + apply rstrip_where_head in Hc. by apply strip_head in Hc.
    + by apply rstrip_where_last in Hc.
Qed.

Lemma weather_city_clean_witness :
  ∃ city,
    maybe_handle_tools env_up (str "u") (str "weather in   Rome ?!") st0
    = (reply ← get_weather_for_city env_up city; mret (Some reply)) st0
    ∧ city ≠ []
    ∧ (∀ c, head city = Some c -> isspace c = false)
    ∧ (∀ c, last city = Some c -> char_in (str "? .,!") c = false).
Proof.
  apply (weather_city_clean env_up (str "u") (str "weather in   Rome ?!") st0).
  reflexivity.
Defined.

(** *** Lower case *)

(** X19. On a message of ASCII code points, lower-casing is the ASCII map
    applied code point by code point: the Unicode table is not consulted
    and every code point keeps its offset. *)
Theorem lower_ascii_only (tbl : CaseTable) (s : pystr) :
  Forall (fun c => (c < 128)%N) s -> lower tbl s = ascii_lower <$> s.
Proof.
  unfold lower. generalize (@nil N) as before.
  induction s as [|c s IH]; intros before Hs; [reflexivity|].
  apply Forall_cons in Hs as [Hc Hs]. simpl. rewrite IH by exact Hs.
  unfold lower_char, ascii_lower. destruct (is_ascii_upper c); [reflexivity|].
  apply N.ltb_lt in Hc. by rewrite Hc.
Qed.

Lemma lower_ascii_only_witness :
  lower (fun _ _ _ => 0%N) (str "Note: Buy HAY") = ascii_lower <$> str "Note: Buy HAY".
Proof.
  apply (lower_ascii_only (fun _ _ _ => 0%N) (str "Note: Buy HAY")).
  repeat constructor.
Defined.

Lemma weather_city_without_dotted_capital_i_witness :
  ∃ before found after,
    str "Is the Weather in Rome?" = before ++ found ++ after
    ∧ length found = 11
    ∧ str "weather in "
      `prefix_of` drop (length before) (lower (case_table env_up) (str "Is the Weather in Rome?"))
    ∧ (∀ k, k < length before ->
            startswith (drop k (lower (case_table env_up) (str "Is the Weather in Rome?")))
              (str "weather in ") = false)
    ∧ maybe_handle_tools env_up (str "u") (str "Is the Weather in Rome?") st0
      = (reply ← get_weather_for_city env_up
           (str_or (rstrip (str "? .,!") (strip after)) (str "Bentonville"));
         mret (Some reply)) st0.
Proof.
  apply (weather_city_without_dotted_capital_i env_up (str "u")
           (str "Is the Weather in Rome?") st0).
  - apply (bool_decide_unpack _). vm_compute. exact I.
  - reflexivity.
Defined.
